(** * JVM configuration resolution of coroot-node-agent, verified

    A shallow embedding of the [containers] package's JVM parameter parsers
    (the revisions found under [src/containers] and [src/unnamed/part_000])
    together with the parts of Go's [strings], [regexp], [strconv] and [fmt]
    packages they call.

    Conventions.
    - A Go [string] is a byte sequence, modelled as [string] (one [ascii]
      per byte).  Offsets are byte offsets, as in Go.
    - [float64] is IEEE 754 binary64, modelled by [spec_float] at precision
      53 and maximal exponent 1024, with the operations of [SpecFloat].
    - A Go [map[string]string] is a [gmap string string].
    - A call that returns [(value, error)] returns an [option]. *)

From Stdlib Require Import ZArith NArith List Bool Ascii String Lia.
From Stdlib Require Import Floats.SpecFloat.
From stdpp Require Import base option strings gmap.

Local Open Scope string_scope.
Local Open Scope nat_scope.

(* ===================================================================== *)
(** * Byte strings *)
(* ===================================================================== *)

Module Str.

Fixpoint drop (n : nat) (s : string) : string :=
  match n, s with
  | O, _ => s
  | S _, EmptyString => EmptyString
  | S n', String _ s' => drop n' s'
  end.

Fixpoint take (n : nat) (s : string) : string :=
  match n, s with
  | O, _ => EmptyString
  | S _, EmptyString => EmptyString
  | S n', String a s' => String a (take n' s')
  end.

(** [s[b:e]] *)
Definition slice (b e : nat) (s : string) : string := take (e - b) (drop b s).

Fixpoint all (p : ascii -> bool) (s : string) : bool :=
  match s with
  | EmptyString => true
  | String a s' => p a && all p s'
  end.

(** [strings.HasPrefix(s, p)] *)
Fixpoint HasPrefix (s p : string) : bool :=
  match p, s with
  | EmptyString, _ => true
  | String _ _, EmptyString => false
  | String b p', String a s' => Ascii.eqb a b && HasPrefix s' p'
  end.

(** [strings.Contains(s, sub)] *)
Fixpoint Contains (s sub : string) : bool :=
  HasPrefix s sub ||
  match s with
  | EmptyString => false
  | String _ s' => Contains s' sub
  end.

(** [strings.TrimPrefix(s, p)] *)
Definition TrimPrefix (s p : string) : string :=
  if HasPrefix s p then drop (String.length p) s else s.

(** [strings.Join(l, sep)] *)
Fixpoint Join (l : list string) (sep : string) : string :=
  match l with
  | [] => ""
  | [x] => x
  | x :: l' => x ++ sep ++ Join l' sep
  end.

Definition lower (a : ascii) : ascii :=
  let n := nat_of_ascii a in
  if (65 <=? n) && (n <=? 90) then ascii_of_nat (n + 32) else a.

(** Lower case of every byte, the letters A to Z only: the case folding
    [strconv] does by hand. *)
Fixpoint lower_ascii (s : string) : string :=
  match s with
  | EmptyString => EmptyString
  | String a s' => String (lower a) (lower_ascii s')
  end.

(** [strings.ToLower].  The letters A to Z go to a to z.  Two runes
    outside ASCII have an ASCII lower case: U+212A, the Kelvin sign
    (bytes 226 132 170), goes to k, and U+0130, the dotted capital I
    (bytes 196 176), goes to i.  Go rewrites the other runes outside
    ASCII to their lower case and invalid bytes to U+FFFD; those stay
    outside ASCII, and here their bytes are left as they are.  The
    callers only look for ASCII text in the result, where the two agree. *)
Fixpoint ToLower (s : string) : string :=
  match s with
  | EmptyString => EmptyString
  | String a s' =>
      match nat_of_ascii a, s' with
      | 226, String b (String c r) =>
          if (nat_of_ascii b =? 132) && (nat_of_ascii c =? 170)
          then String "k" (ToLower r)
          else String a (ToLower s')
      | 196, String b r =>
          if nat_of_ascii b =? 176 then String "i" (ToLower r)
          else String a (ToLower s')
      | _, _ => String (lower a) (ToLower s')
      end
  end.

Fixpoint rev_onto (s acc : string) : string :=
  match s with
  | EmptyString => acc
  | String a s' => rev_onto s' (String a acc)
  end.

Definition rev (s : string) : string := rev_onto s "".

(** ** White space

    [unicode.IsSpace] holds of the ASCII bytes 9..13 and 32 and of the
    runes U+0085, U+00A0, U+1680, U+2000..U+200A, U+2028, U+2029, U+202F,
    U+205F and U+3000.  The lead byte of a UTF-8 sequence is never a
    continuation byte, so Go's decoder, which resynchronises on every
    lead byte, sees such a rune exactly where its encoding occurs in the
    byte string.  [space_width s] is the width of the white-space rune [s]
    starts with, or 0. *)

Definition is_ascii_space (a : ascii) : bool :=
  let n := nat_of_ascii a in
  ((9 <=? n) && (n <=? 13)) || (n =? 32).

Definition space_width (s : string) : nat :=
  match s with
  | EmptyString => 0
  | String a s1 =>
      if is_ascii_space a then 1 else
      match nat_of_ascii a, s1 with
      | 194, String b _ =>
          let nb := nat_of_ascii b in
          if (nb =? 133) || (nb =? 160) then 2 else 0
      | 225, String b (String c _) =>
          if (nat_of_ascii b =? 154) && (nat_of_ascii c =? 128) then 3 else 0
      | 226, String b (String c _) =>
          let nb := nat_of_ascii b in
          let nc := nat_of_ascii c in
          if (nb =? 128) &&
             (((128 <=? nc) && (nc <=? 138)) || (nc =? 168) || (nc =? 169) || (nc =? 175))
          then 3
          else if (nb =? 129) && (nc =? 159) then 3 else 0
      | 227, String b (String c _) =>
          if (nat_of_ascii b =? 128) && (nat_of_ascii c =? 128) then 3 else 0
      | _, _ => 0
      end
  end.

(** [strings.Fields(s)]: the maximal runs of non-space runes.  [cur] is
    the field being read, reversed; [skip] counts continuation bytes of a
    white-space rune still to drop. *)
Fixpoint fields_go (s : string) (skip : nat) (cur : string) : list string :=
  match s with
  | EmptyString => if String.eqb cur "" then [] else [rev cur]
  | String a s' =>
      match skip with
      | S k => fields_go s' k cur
      | O =>
          match space_width s with
          | O => fields_go s' 0 (String a cur)
          | S k =>
              if String.eqb cur "" then fields_go s' k ""
              else rev cur :: fields_go s' k ""
          end
      end
  end.

Definition Fields (s : string) : list string := fields_go s 0 "".

(** [strings.TrimSpace(s)] *)
Fixpoint trim_left (fuel : nat) (s : string) : string :=
  match fuel with
  | O => s
  | S f =>
      match space_width s with
      | O => s
      | w => trim_left f (drop w s)
      end
  end.

(** The white-space rune a reversed string starts with: the encoding is
    read back to front. *)
Definition space_width_rev (r : string) : nat :=
  match r with
  | EmptyString => 0
  | String a _ =>
      if is_ascii_space a then 1
      else if (0 <? space_width (rev (take 2 r))) && (space_width (rev (take 2 r)) =? 2) then 2
      else if space_width (rev (take 3 r)) =? 3 then 3
      else 0
  end.

Fixpoint trim_right_rev (fuel : nat) (r : string) : string :=
  match fuel with
  | O => r
  | S f =>
      match space_width_rev r with
      | O => r
      | w => trim_right_rev f (drop w r)
      end
  end.

Definition TrimSpace (s : string) : string :=
  let l := trim_left (String.length s) s in
  rev (trim_right_rev (String.length l) (rev l)).

End Str.

(* ===================================================================== *)
(** * Go's [regexp], as far as the parsers use it *)
(* ===================================================================== *)

(** The patterns of this package are built from literals, byte classes,
    concatenation, alternation, greedy repetition, capture groups and the
    anchors [^] and [$].  Go matches leftmost-first: among the matches that
    start earliest it reports the one a backtracking search finds first.
    [run] is that backtracking search, in continuation-passing style.

    Go matches runes; every class below is either a set of ASCII bytes or
    the complement of a set of ASCII white space, and every pattern starts
    with an ASCII byte or an anchor, so matching byte by byte gives the same
    matches. *)

Module Regexp.

Inductive regex : Type :=
| Eps
| Class (p : ascii -> bool)
| Seq (r1 r2 : regex)
| Alt (r1 r2 : regex)
| Star (r : regex)
| Group (n : nat) (r : regex)
| Bol
| Eol.

Definition Plus (r : regex) : regex := Seq r (Star r).
Definition Opt (r : regex) : regex := Alt r Eps.

Fixpoint Lit (s : string) : regex :=
  match s with
  | EmptyString => Eps
  | String a s' => Seq (Class (Ascii.eqb a)) (Lit s')
  end.

(** Byte classes *)
Definition in_range (lo hi : nat) (a : ascii) : bool :=
  (lo <=? nat_of_ascii a) && (nat_of_ascii a <=? hi).

(** [\d] and [[0-9]] *)
Definition digit (a : ascii) : bool := in_range 48 57 a.
(** [\s]: tab, line feed, form feed, carriage return, space *)
Definition space (a : ascii) : bool :=
  let n := nat_of_ascii a in
  (n =? 9) || (n =? 10) || (n =? 12) || (n =? 13) || (n =? 32).
Definition not_space (a : ascii) : bool := negb (space a).
Definition alpha (a : ascii) : bool := in_range 65 90 a || in_range 97 122 a.
Definition alnum (a : ascii) : bool := alpha a || digit a.
Definition one_of (set : string) (a : ascii) : bool :=
  Str.Contains set (String a "").

(** Capture registers: the most recent binding of a group comes first. *)
Definition caps : Type := list (nat * (nat * nat)).

Fixpoint cap (n : nat) (c : caps) : option (nat * nat) :=
  match c with
  | [] => None
  | (m, be) :: c' => if m =? n then Some be else cap n c'
  end.

(** A thread: offset reached, input left, registers. *)
Definition result : Type := (nat * string * caps)%type.
Definition cont : Type := nat -> string -> caps -> option result.

(** Greedy repetition of [body]: one more round is tried before the
    continuation; a round that consumes nothing is dropped.  A round
    consumes at least one byte, so [fuel], the length of the input left,
    is never used up before the input is. *)
Fixpoint star_loop (body : nat -> string -> caps -> cont -> option result)
    (k : cont) (fuel : nat) (i : nat) (s : string) (c : caps) : option result :=
  match fuel with
  | O => k i s c
  | S f =>
      match body i s c (fun j s1 c1 => if j =? i then None else star_loop body k f j s1 c1) with
      | Some x => Some x
      | None => k i s c
      end
  end.

Fixpoint run (r : regex) (i : nat) (s : string) (c : caps) (k : cont)
  : option result :=
  match r with
  | Eps => k i s c
  | Class p =>
      match s with
      | String a s' => if p a then k (S i) s' c else None
      | EmptyString => None
      end
  | Seq r1 r2 => run r1 i s c (fun j s1 c1 => run r2 j s1 c1 k)
  | Alt r1 r2 =>
      match run r1 i s c k with
      | Some x => Some x
      | None => run r2 i s c k
      end
  | Star r1 => star_loop (run r1) k (String.length s) i s c
  | Group n r1 => run r1 i s c (fun j s1 c1 => k j s1 ((n, (i, j)) :: c1))
  | Bol => if i =? 0 then k i s c else None
  | Eol =>
      match s with
      | EmptyString => k i s c
      | String _ _ => None
      end
  end.

Definition accept : cont := fun j s c => Some (j, s, c).

(** One match: start, end, input left after it, registers. *)
Definition hit : Type := (nat * nat * string * caps)%type.

(** The leftmost match starting at offset [i] or later; [s] is the input
    from offset [i] on. *)
Fixpoint search (r : regex) (i : nat) (s : string) : option hit :=
  match run r i s [] accept with
  | Some (j, s1, c1) => Some (i, j, s1, c1)
  | None =>
      match s with
      | EmptyString => None
      | String _ s' => search r (S i) s'
      end
  end.

(** [Regexp.allMatches]: successive matches, each search resuming where
    the previous match ended; an empty match directly after a match is
    dropped, and after an empty match the search moves on by one. *)
Fixpoint allMatches (fuel : nat) (r : regex) (pos : nat) (s : string)
    (prevMatchEnd : option nat) : list hit :=
  match fuel with
  | O => []
  | S f =>
      match search r pos s with
      | None => []
      | Some (b, e, rest, c) =>
          if e =? pos then
            let keep (l : list hit) :=
              if bool_decide (prevMatchEnd = Some b) then l else (b, e, rest, c) :: l in
            match s with
            | EmptyString => keep []
            | String _ s' => keep (allMatches f r (S pos) s' (Some e))
            end
          else (b, e, rest, c) :: allMatches f r e rest (Some e)
      end
  end.

Fixpoint ngroups (r : regex) : nat :=
  match r with
  | Seq r1 r2 | Alt r1 r2 => Nat.max (ngroups r1) (ngroups r2)
  | Star r1 => ngroups r1
  | Group n r1 => Nat.max n (ngroups r1)
  | _ => 0
  end.

(** The text of group [n], empty when the group took no part. *)
Definition group_text (s : string) (c : caps) (n : nat) : string :=
  match cap n c with
  | Some (b, e) => Str.slice b e s
  | None => ""
  end.

Definition submatch (r : regex) (s : string) (h : hit) : list string :=
  let '(b, e, _, c) := h in
  Str.slice b e s :: map (group_text s c) (seq 1 (ngroups r)).

Definition all (r : regex) (s : string) : list hit :=
  allMatches (S (S (String.length s))) r 0 s None.

(** [re.FindStringSubmatch(s)]: [nil] or the match followed by its groups *)
Definition FindStringSubmatch (r : regex) (s : string) : list string :=
  match search r 0 s with
  | Some h => submatch r s h
  | None => []
  end.

(** [re.FindString(s)] *)
Definition FindString (r : regex) (s : string) : string :=
  match search r 0 s with
  | Some (b, e, _, _) => Str.slice b e s
  | None => ""
  end.

(** [re.MatchString(s)] *)
Definition MatchString (r : regex) (s : string) : bool :=
  match search r 0 s with
  | Some _ => true
  | None => false
  end.

(** [re.FindAllStringSubmatch(s, -1)] *)
Definition FindAllStringSubmatch (r : regex) (s : string) : list (list string) :=
  map (submatch r s) (all r s).

(** [re.FindAllStringIndex(s, -1)] *)
Definition FindAllStringIndex (r : regex) (s : string) : list (nat * nat) :=
  map (fun h : hit => let '(b, e, _, _) := h in (b, e)) (all r s).

(** [re.FindAllString(s, -1)] *)
Definition FindAllString (r : regex) (s : string) : list string :=
  map (fun h : hit => let '(b, e, _, _) := h in Str.slice b e s) (all r s).

End Regexp.

(* ===================================================================== *)
(** * [float64], [strconv.ParseFloat] and [fmt]'s [%.1f] *)
(* ===================================================================== *)

Module F64.

Definition prec : Z := 53.
Definition emax : Z := 1024.

Definition float64 : Type := spec_float.

Definition of_Z (n : Z) : float64 := binary_normalize prec emax n 0 false.

Definition zero : float64 := S754_zero false.
Definition neg_one : float64 := Eval vm_compute in of_Z (-1).
Definition c1024 : float64 := Eval vm_compute in of_Z 1024.
Definition c100 : float64 := Eval vm_compute in of_Z 100.

Definition mul : float64 -> float64 -> float64 := SFmul prec emax.
Definition div : float64 -> float64 -> float64 := SFdiv prec emax.
(** [x == y], [x < y], [x > y] *)
Definition eqb : float64 -> float64 -> bool := SFeqb.
Definition ltb : float64 -> float64 -> bool := SFltb.
Definition gtb (x y : float64) : bool := SFltb y x.

Definition is_neg (x : float64) : bool :=
  match x with
  | S754_zero s | S754_infinity s | S754_finite s _ _ => s
  | S754_nan => false
  end.

(** The float nearest to [n / d], ties to even.  The quotient is taken with
    more than 64 significant bits and a sticky bit, which rounds as the
    exact value does. *)
Definition of_ratio (neg : bool) (n : Z) (d : Z) : float64 :=
  if (n =? 0)%Z then S754_zero neg
  else
    let k := (Z.log2 d + 64)%Z in
    let (q, r) := Z.div_eucl (n * 2 ^ k) d in
    let m := (2 * q + (if (r =? 0)%Z then 0 else 1))%Z in
    binary_normalize prec emax (if neg then (- m)%Z else m) (- (k + 1)) neg.

(** The float nearest to [m * base ^ e], for [base] 10 or 2. *)
Definition scaled (neg : bool) (m : Z) (base : Z) (e : Z) : float64 :=
  if (0 <=? e)%Z then of_ratio neg (m * base ^ e) 1
  else of_ratio neg m (base ^ (- e)).

(** ** [strconv.ParseFloat(s, 64)] *)

Definition lower_eq (a : ascii) (b : ascii) : bool := Ascii.eqb (Str.lower a) b.

Definition dec_val (a : ascii) : option Z :=
  let n := nat_of_ascii a in
  if (48 <=? n) && (n <=? 57) then Some (Z.of_nat (n - 48)) else None.

Definition hex_val (a : ascii) : option Z :=
  match dec_val a with
  | Some v => Some v
  | None =>
      let n := nat_of_ascii (Str.lower a) in
      if (97 <=? n) && (n <=? 102) then Some (Z.of_nat (n - 87)) else None
  end.

Definition digit_val (hex : bool) (a : ascii) : option Z :=
  if hex then hex_val a else dec_val a.

Definition is_Some {A : Type} (o : option A) : bool :=
  match o with
  | Some _ => true
  | None => false
  end.

(** [special]: the spellings of the infinities and of NaN *)
Definition special (s : string) : option float64 :=
  match s with
  | String "+" r =>
      if String.eqb (Str.lower_ascii r) "inf" || String.eqb (Str.lower_ascii r) "infinity"
      then Some (S754_infinity false) else None
  | String "-" r =>
      if String.eqb (Str.lower_ascii r) "inf" || String.eqb (Str.lower_ascii r) "infinity"
      then Some (S754_infinity true) else None
  | _ =>
      if String.eqb (Str.lower_ascii s) "inf" || String.eqb (Str.lower_ascii s) "infinity"
      then Some (S754_infinity false)
      else if String.eqb (Str.lower_ascii s) "nan" then Some S754_nan
      else None
  end.

(** [underscoreOK]: an underscore stands between two digits, or between a
    base prefix and a digit.  [saw] is 0 at the start, 1 after a digit or
    prefix, 2 after an underscore, 3 after anything else. *)
Fixpoint underscore_scan (hex : bool) (saw : nat) (s : string) : bool :=
  match s with
  | EmptyString => negb (saw =? 2)
  | String a s' =>
      if is_Some (digit_val hex a) then underscore_scan hex 1 s'
      else if Ascii.eqb a "_" then
        if saw =? 1 then underscore_scan hex 2 s' else false
      else if saw =? 2 then false
      else underscore_scan hex 3 s'
  end.

Definition underscoreOK (s : string) : bool :=
  let s1 := match s with
            | String "-" r | String "+" r => r
            | _ => s
            end in
  match s1 with
  | String "0" (String x r) =>
      if lower_eq x "b" || lower_eq x "o" || lower_eq x "x"
      then underscore_scan (lower_eq x "x") 1 r
      else underscore_scan false 0 s1
  | _ => underscore_scan false 0 s1
  end.

(** The mantissa loop of [readFloat]: digits, at most one point,
    underscores.  The result is the value of the digits read as an
    integer, the count of digits after the point, whether a digit was
    seen, and the input left. *)
Fixpoint mantissa (hex : bool) (s : string) (m : Z) (sawdot : bool) (fd : Z)
    (sawdigits : bool) : Z * Z * bool * string :=
  match s with
  | EmptyString => (m, fd, sawdigits, s)
  | String a s' =>
      if Ascii.eqb a "_" then mantissa hex s' m sawdot fd sawdigits
      else if Ascii.eqb a "." then
        if sawdot then (m, fd, sawdigits, s)
        else mantissa hex s' m true fd sawdigits
      else
        match digit_val hex a with
        | Some v =>
            mantissa hex s' ((if hex then 16 else 10) * m + v)%Z sawdot
              (if sawdot then fd + 1 else fd)%Z true
        | None => (m, fd, sawdigits, s)
        end
  end.

(** The digits of an exponent; beyond 10000 further digits are dropped. *)
Fixpoint exponent_digits (s : string) (e : Z) : Z * string :=
  match s with
  | EmptyString => (e, s)
  | String a s' =>
      if Ascii.eqb a "_" then exponent_digits s' e
      else
        match dec_val a with
        | Some v => exponent_digits s' (if (e <? 10000)%Z then 10 * e + v else e)%Z
        | None => (e, s)
        end
  end.

(** The exponent part: none ([Some (0, s)] when [required] is off), or the
    marker, an optional sign and at least one digit. *)
Definition exponent (marker : ascii) (required : bool) (s : string)
  : option (Z * string) :=
  match s with
  | String a s1 =>
      if lower_eq a marker then
        let '(neg, s2) :=
          match s1 with
          | String "+" r => (false, r)
          | String "-" r => (true, r)
          | _ => (false, s1)
          end in
        match s2 with
        | String d _ =>
            if is_Some (dec_val d) then
              let '(e, rest) := exponent_digits s2 0 in
              Some ((if neg then - e else e)%Z, rest)
            else None
        | EmptyString => None
        end
      else if required then None else Some (0%Z, s)
  | EmptyString => if required then None else Some (0%Z, s)
  end.

(** [readFloat] followed by the conversion: the value read is rounded to
    the nearest float; a value that rounds to an infinity is a range error. *)
Definition number (s : string) : option float64 :=
  let '(neg, s1) :=
    match s with
    | String "+" r => (false, r)
    | String "-" r => (true, r)
    | _ => (false, s)
    end in
  let '(hex, s2) :=
    match s1 with
    | String "0" (String x (String y r)) =>
        if lower_eq x "x" then (true, String y r) else (false, s1)
    | _ => (false, s1)
    end in
  let '(m, fd, sawdigits, s3) := mantissa hex s2 0 false 0 false in
  if negb sawdigits then None
  else
    match exponent (if hex then "p" else "e")%char hex s3 with
    | Some (e, EmptyString) =>
        if Str.Contains s "_" && negb (underscoreOK s) then None
        else
          let x := if hex then scaled neg m 2 (e - 4 * fd)
                   else scaled neg m 10 (e - fd) in
          match x with
          | S754_infinity _ => None
          | _ => Some x
          end
    | _ => None
    end.

Definition ParseFloat (s : string) : option float64 :=
  match special s with
  | Some x => Some x
  | None => number s
  end.

(** ** [fmt.Sprintf("%.1f", x)]

    The exact value of [x] is rounded to a whole number of tenths, ties to
    even, and printed with one digit after the point. *)

Fixpoint digits_of (fuel : nat) (n : Z) (acc : string) : string :=
  match fuel with
  | O => acc
  | S f =>
      let acc' := String (ascii_of_nat (48 + Z.to_nat (n mod 10))) acc in
      if (n <? 10)%Z then acc' else digits_of f (n / 10)%Z acc'
  end.

(** [%d] of a natural number *)
Definition itoa (n : Z) : string := digits_of (S (Z.to_nat (Z.log2 n))) n "".

Definition tenths (m : positive) (e : Z) : Z :=
  if (0 <=? e)%Z then Z.pos m * 2 ^ e * 10
  else
    let d := (2 ^ (- e))%Z in
    let (q, r) := Z.div_eucl (Z.pos m * 10) d in
    match (2 * r ?= d)%Z with
    | Lt => q
    | Gt => (q + 1)%Z
    | Eq => if Z.even q then q else (q + 1)%Z
    end.

Definition Sprintf_1f (x : float64) : string :=
  match x with
  | S754_nan => "NaN"
  | S754_infinity s => if s then "-Inf" else "+Inf"
  | S754_zero s => if s then "-0.0" else "0.0"
  | S754_finite s m e =>
      let t := tenths m e in
      (if s then "-" else "") ++ itoa (t / 10) ++ "." ++ itoa (t mod 10)
  end.

End F64.

Import Regexp.

(* ===================================================================== *)
(** * The command-line and environment parser *)
(* ===================================================================== *)

(** The parser of [src/containers/jvm_param_parser.go] and its later
    revision (the third file of [src/unnamed/part_000]), which adds the
    offset-aware precedence between absolute sizes and percentages that
    the tests of [src/containers/jvm_test.go] expect.  The two revisions
    share everything up to the last step of [parseJVMParamsFromString]. *)

Module Cmdline.

Import F64.

Record JVMParams : Type := mkJVMParams {
  JavaMaxHeapSize : float64;             (* in bytes, -1 if using percentage *)
  JavaInitialHeapSize : float64;         (* in bytes, -1 if using percentage *)
  JavaMaxHeapAsPercentage : float64;     (* percentage value, 0 if not set *)
  JavaInitialHeapAsPercentage : float64; (* percentage value, 0 if not set *)
  XXOptions : string                     (* all other XX options, comma-separated *)
}.

(** [\d+(?:\.\d+)?] and [[0-9]+(?:\.[0-9]+)?] *)
Definition re_decimal : regex :=
  Seq (Plus (Class digit)) (Opt (Seq (Lit ".") (Plus (Class digit)))).

(** [^(\d+(?:\.\d+)?)([kmgKMG]?)$] *)
Definition re_memory_size : regex :=
  Seq Bol (Seq (Group 1 re_decimal)
          (Seq (Group 2 (Opt (Class (one_of "kmgKMG")))) Eol)).

(** [parseMemorySize] converts memory size strings like "2g", "512m",
    "1024" to bytes. *)
Definition parseMemorySize (sizeStr : string) : option float64 :=
  if String.eqb sizeStr "" then None
  else
    match FindStringSubmatch re_memory_size sizeStr with
    | [_; num; unit] =>
        match ParseFloat num with
        | None => None
        | Some value =>
            let unit := Str.ToLower unit in
            if String.eqb unit "k" then Some (mul value c1024)
            else if String.eqb unit "m" then Some (mul (mul value c1024) c1024)
            else if String.eqb unit "g" then Some (mul (mul (mul value c1024) c1024) c1024)
            else if String.eqb unit "" then Some value
            else None
        end
    | _ => None
    end.

(** [-XX:<optionName>=([0-9]+(?:\.[0-9]+)?)]; the option names used are
    plain identifiers, which stand for themselves in a pattern. *)
Definition re_percentage (optionName : string) : regex :=
  Seq (Lit ("-XX:" ++ optionName ++ "=")) (Group 1 re_decimal).

(** [parsePercentage]: the value of the last occurrence, 0 if there is
    none. *)
Definition parsePercentage (xxOptions optionName : string) : float64 :=
  match last (FindAllStringSubmatch (re_percentage optionName) xxOptions) with
  | Some (_ :: v :: _) =>
      match ParseFloat v with
      | Some value => value
      | None => zero
      end
  | _ => zero
  end.

(** [(?:^|\s)<flag>(\d+[kmgKMG]?)] for the four size flags *)
Definition re_size_flag (flag : string) : regex :=
  Seq (Alt Bol (Class space))
      (Seq (Lit flag)
           (Group 1 (Seq (Plus (Class digit)) (Opt (Class (one_of "kmgKMG")))))).

Definition xmxRegex : regex := re_size_flag "-Xmx".
Definition xxMaxHeapRegex : regex := re_size_flag "-XX:MaxHeapSize=".
Definition xmsRegex : regex := re_size_flag "-Xms".
Definition xxMinHeapRegex : regex := re_size_flag "-XX:MinHeapSize=".

(** [(?:^|\s)-XX:[+-]?[A-Za-z][A-Za-z0-9]*(?:=[^\s]+)?] *)
Definition xxRegex : regex :=
  Seq (Alt Bol (Class space))
      (Seq (Lit "-XX:")
           (Seq (Opt (Class (one_of "+-")))
                (Seq (Class alpha)
                     (Seq (Star (Class alnum))
                          (Opt (Seq (Lit "=") (Plus (Class not_space)))))))).

(** [-XX:MaxRAMPercentage=([0-9]+(?:\.[0-9]+)?)] *)
Definition maxRAMRegex : regex := re_percentage "MaxRAMPercentage".

(** One flag occurrence: the captured size text and the offset at which
    the match starts. *)
Definition occurrence : Type := (string * Z)%type.

(** The loop that collects the occurrences of one spelling. *)
Definition occurrences (re : regex) (input : string) : list occurrence :=
  flat_map
    (fun mi : list string * (nat * nat) =>
       match fst mi with
       | _ :: value :: _ => [(value, Z.of_nat (fst (snd mi)))]
       | _ => []
       end)
    (zip (FindAllStringSubmatch re input) (FindAllStringIndex re input)).

Definition maxHeapMatches (input : string) : list occurrence :=
  occurrences xmxRegex input ++ occurrences xxMaxHeapRegex input.

Definition initialHeapMatches (input : string) : list occurrence :=
  occurrences xmsRegex input ++ occurrences xxMinHeapRegex input.

(** The loop that finds the rightmost occurrence. *)
Fixpoint rightmost_from (l : list occurrence) (rightmostValue : string)
    (rightmostPos : Z) : occurrence :=
  match l with
  | [] => (rightmostValue, rightmostPos)
  | (value, pos) :: l' =>
      if (pos >? rightmostPos)%Z then rightmost_from l' value pos
      else rightmost_from l' rightmostValue rightmostPos
  end.

Definition rightmost (l : list occurrence) : occurrence := rightmost_from l "" (-1).

(** The size a heap kind resolves to from its occurrences, with the offset
    of the winning occurrence; [(0, -1)] when there is no occurrence or the
    winner does not convert. *)
Definition resolveHeap (matches : list occurrence) : float64 * Z :=
  match matches with
  | [] => (zero, (-1)%Z)
  | _ =>
      let '(rightmostValue, rightmostPos) := rightmost matches in
      match parseMemorySize rightmostValue with
      | Some size => (size, rightmostPos)
      | None => (zero, (-1)%Z)
      end
  end.

Definition xxOptionsString (input : string) : string :=
  match FindAllString xxRegex input with
  | [] => ""
  | xxMatches => Str.Join (map Str.TrimSpace xxMatches) ","
  end.

(** Offset of the last [-XX:MaxRAMPercentage=] in the input, -1 if none *)
Definition maxRAMPercentagePos (input : string) : Z :=
  match last (FindAllStringIndex maxRAMRegex input) with
  | Some (b, _) => Z.of_nat b
  | None => (-1)%Z
  end.

(** [parseJVMParamsFromString], later revision *)
Definition parseJVMParamsFromString (input : string) : JVMParams :=
  let '(maxHeapSize, maxHeapSizePos) := resolveHeap (maxHeapMatches input) in
  let '(initialHeapSize, _) := resolveHeap (initialHeapMatches input) in
  let xxOptionsString := xxOptionsString input in
  let maxPercentage :=
    match FindAllStringIndex maxRAMRegex input with
    | [] => zero
    | _ => parsePercentage xxOptionsString "MaxRAMPercentage"
    end in
  let initialPercentage := parsePercentage xxOptionsString "InitialRAMPercentage" in
  let maxHeapSize :=
    if gtb maxPercentage zero then
      if eqb maxHeapSize zero then neg_one
      else
        let multipleMaxHeapSizes := 1 <? List.length (maxHeapMatches input) in
        let percentageAtEnd := (maxRAMPercentagePos input >? maxHeapSizePos)%Z in
        if multipleMaxHeapSizes && percentageAtEnd then neg_one else maxHeapSize
    else maxHeapSize in
  let initialHeapSize :=
    if gtb initialPercentage zero then
      if eqb initialHeapSize zero then neg_one else initialHeapSize
    else initialHeapSize in
  {| JavaMaxHeapSize := maxHeapSize;
     JavaInitialHeapSize := initialHeapSize;
     JavaMaxHeapAsPercentage := maxPercentage;
     JavaInitialHeapAsPercentage := initialPercentage;
     XXOptions := xxOptionsString |}.

(** [parseJVMParamsFromString] of [src/containers/jvm_param_parser.go]: a
    percentage above 0 always replaces the size by -1. *)
Definition parseJVMParamsFromString_0 (input : string) : JVMParams :=
  let '(maxHeapSize, _) := resolveHeap (maxHeapMatches input) in
  let '(initialHeapSize, _) := resolveHeap (initialHeapMatches input) in
  let xxOptionsString := xxOptionsString input in
  let maxPercentage := parsePercentage xxOptionsString "MaxRAMPercentage" in
  let initialPercentage := parsePercentage xxOptionsString "InitialRAMPercentage" in
  {| JavaMaxHeapSize := if gtb maxPercentage zero then neg_one else maxHeapSize;
     JavaInitialHeapSize := if gtb initialPercentage zero then neg_one else initialHeapSize;
     JavaMaxHeapAsPercentage := maxPercentage;
     JavaInitialHeapAsPercentage := initialPercentage;
     XXOptions := xxOptionsString |}.

(** The environment variables read, in the order they are appended *)
Definition envVars : list string :=
  ["JAVA_TOOL_OPTIONS"; "_JAVA_OPTIONS"; "JDK_JAVA_OPTIONS"; "IBM_JAVA_OPTIONS"].

(** [combinedArgs.WriteString], preceded by a space when the builder is
    not empty *)
Definition append_arg (combinedArgs : string) (arg : string) : string :=
  if String.eqb arg "" then combinedArgs
  else if 0 <? String.length combinedArgs then combinedArgs ++ " " ++ arg
  else combinedArgs ++ arg.

(** The text [parseJVMParams] hands to [parseJVMParamsFromString]; [env]
    is the map [readEnviron] returned. *)
Definition combinedArgs (cmdline : string) (env : gmap string string) : string :=
  append_arg
    (fold_left (fun acc envVar => append_arg acc (default "" (env !! envVar)))
               envVars "")
    cmdline.

Definition parseJVMParams (cmdline : string) (env : gmap string string) : JVMParams :=
  parseJVMParamsFromString (combinedArgs cmdline env).

End Cmdline.

(* ===================================================================== *)
(** * Garbage-collector classification *)
(* ===================================================================== *)

(** [parseGCType] of the first revision in [src/unnamed/part_000] and
    [parseHotSpotGCType] of the second are the same function. *)

Module GC.

(** GC flags in the order of the table *)
Definition gcFlags : list (string * string) :=
  [("+UseZGC", "ZGC");
   ("+UseShenandoahGC", "ShenandoahGC");
   ("+UseG1GC", "G1GC");
   ("+UseParallelGC", "ParallelGC");
   ("+UseParallelOldGC", "ParallelOldGC");
   ("+UseConcMarkSweepGC", "ConcMarkSweepGC");
   ("+UseSerialGC", "SerialGC")].

(** The inner loop: every table entry the flag contains overwrites
    [detectedGC]. *)
Definition detect_in_flag (detectedGC flag : string) : string :=
  fold_left
    (fun detected gc => if Str.Contains flag (fst gc) then snd gc else detected)
    gcFlags detectedGC.

(** The outer loop over the flags *)
Definition detect (flags : list string) : string :=
  fold_left detect_in_flag flags "".

(** The body of the inference loop for one flag: the category it falls
    in, if any. *)
Definition infer_flag (flag : string) : option string :=
  if Str.Contains flag "G1" then Some "G1GC"
  else if Str.Contains flag "Parallel" && negb (Str.Contains flag "-UseParallelGC")
  then Some "ParallelGC"
  else if Str.Contains flag "ConcMarkSweep" || Str.Contains flag "CMS"
  then Some "ConcMarkSweepGC"
  else if Str.Contains flag "Serial" && negb (Str.Contains flag "-UseSerialGC")
  then Some "SerialGC"
  else None.

(** The inference loop: the first flag that falls in a category returns. *)
Fixpoint infer (flags : list string) : option string :=
  match flags with
  | [] => None
  | flag :: flags' =>
      match infer_flag flag with
      | Some gc => Some gc
      | None => infer flags'
      end
  end.

Definition parseHotSpotGCType (flags : list string) : string :=
  let detectedGC := detect flags in
  if String.eqb detectedGC "" then
    match infer flags with
    | Some gc => gc
    | None => "Unknown"
    end
  else detectedGC.

(** [parseOpenJ9GCType] *)
Definition openj9_flag (flag : string) : option string :=
  if Str.Contains flag "gencon" then Some "Generational Concurrent (OpenJ9)"
  else if Str.Contains flag "optthruput" then Some "Throughput (OpenJ9)"
  else if Str.Contains flag "optavgpause" then Some "Average Pause (OpenJ9)"
  else if Str.Contains flag "balanced" then Some "Balanced (OpenJ9)"
  else None.

Fixpoint parseOpenJ9GCType (flags : list string) : string :=
  match flags with
  | [] => "Unknown (OpenJ9)"
  | flag :: flags' =>
      match openj9_flag flag with
      | Some gc => gc
      | None => parseOpenJ9GCType flags'
      end
  end.

End GC.

(* ===================================================================== *)
(** * The attach transport *)
(* ===================================================================== *)

(** [jvm.GetVMFlags], [jvm.GetSystemProperties] and [jvm.GetVersion] dial
    the process and run one command; each returns its output or an error.
    What they answer for each pid is the state of the outside world. *)
Record Attach : Type := mkAttach {
  GetVMFlags : nat -> option string;
  GetSystemProperties : nat -> option string;
  GetVersion : nat -> option string
}.

(** [-XX:<flagName>=([^\s]+)] *)
Definition re_flag_value (flagName : string) : regex :=
  Seq (Lit ("-XX:" ++ flagName ++ "=")) (Group 1 (Plus (Class not_space))).

(** [extractFlagValue] extracts the value from a VM flag like
    "-XX:MaxHeapSize=2147483648". *)
Definition extractFlagValue (line flagName : string) : string :=
  match FindStringSubmatch (re_flag_value flagName) line with
  | _ :: value :: _ => value
  | _ => ""
  end.

(* ===================================================================== *)
(** * The live-flags parser with RAM fractions *)
(* ===================================================================== *)

(** First revision in [src/unnamed/part_000]. *)

Module VMFlags.

Import F64.

Record JVMParams : Type := mkJVMParams {
  JavaMaxHeapSize : string;
  JavaInitialHeapSize : string;
  JavaMaxHeapAsPercentage : string;
  JavaInitialHeapAsPercentage : string;
  MinRAMPercentage : string;
  GCType : string
}.

Definition empty : JVMParams := mkJVMParams "" "" "" "" "" "".

Definition set_JavaMaxHeapSize (v : string) (p : JVMParams) : JVMParams :=
  mkJVMParams v (JavaInitialHeapSize p) (JavaMaxHeapAsPercentage p)
    (JavaInitialHeapAsPercentage p) (MinRAMPercentage p) (GCType p).
Definition set_JavaInitialHeapSize (v : string) (p : JVMParams) : JVMParams :=
  mkJVMParams (JavaMaxHeapSize p) v (JavaMaxHeapAsPercentage p)
    (JavaInitialHeapAsPercentage p) (MinRAMPercentage p) (GCType p).
Definition set_JavaMaxHeapAsPercentage (v : string) (p : JVMParams) : JVMParams :=
  mkJVMParams (JavaMaxHeapSize p) (JavaInitialHeapSize p) v
    (JavaInitialHeapAsPercentage p) (MinRAMPercentage p) (GCType p).
Definition set_JavaInitialHeapAsPercentage (v : string) (p : JVMParams) : JVMParams :=
  mkJVMParams (JavaMaxHeapSize p) (JavaInitialHeapSize p) (JavaMaxHeapAsPercentage p)
    v (MinRAMPercentage p) (GCType p).
Definition set_MinRAMPercentage (v : string) (p : JVMParams) : JVMParams :=
  mkJVMParams (JavaMaxHeapSize p) (JavaInitialHeapSize p) (JavaMaxHeapAsPercentage p)
    (JavaInitialHeapAsPercentage p) v (GCType p).
Definition set_GCType (v : string) (p : JVMParams) : JVMParams :=
  mkJVMParams (JavaMaxHeapSize p) (JavaInitialHeapSize p) (JavaMaxHeapAsPercentage p)
    (JavaInitialHeapAsPercentage p) (MinRAMPercentage p) v.

(** The three parameters that have a percentage flag and a fraction flag *)
Inductive ram : Type := Max | Initial | Min.

Definition percentage (k : ram) : JVMParams -> string :=
  match k with
  | Max => JavaMaxHeapAsPercentage
  | Initial => JavaInitialHeapAsPercentage
  | Min => MinRAMPercentage
  end.

Definition set_percentage (k : ram) : string -> JVMParams -> JVMParams :=
  match k with
  | Max => set_JavaMaxHeapAsPercentage
  | Initial => set_JavaInitialHeapAsPercentage
  | Min => set_MinRAMPercentage
  end.


Definition fractionName (k : ram) : string :=
  match k with
  | Max => "MaxRAMFraction"
  | Initial => "InitialRAMFraction"
  | Min => "MinRAMFraction"
  end.

(** A non-empty extracted value is stored. *)
Definition store (set : string -> JVMParams -> JVMParams) (flag name : string)
    (params : JVMParams) : JVMParams :=
  let value := extractFlagValue flag name in
  if String.eqb value "" then params else set value params.

(** A fraction is converted, unless the percentage field is already set,
    the value is empty or not a number, or the number is not above 0. *)
Definition store_fraction (k : ram) (flag : string) (params : JVMParams) : JVMParams :=
  if String.eqb (percentage k params) "" then
    let value := extractFlagValue flag (fractionName k) in
    if String.eqb value "" then params
    else
      match ParseFloat value with
      | Some fraction =>
          if gtb fraction zero
          then set_percentage k (Sprintf_1f (div c100 fraction)) params
          else params
      | None => params
      end
  else params.

(** The body of the loop over the flags *)
Definition step (params : JVMParams) (flag : string) : JVMParams :=
  let flag := Str.TrimSpace flag in
  if String.eqb flag "" then params
  else if Str.HasPrefix flag "-XX:" then
    if Str.Contains flag "MaxHeapSize=" then
      store set_JavaMaxHeapSize flag "MaxHeapSize" params
    else if Str.Contains flag "MinHeapSize=" then
      store set_JavaInitialHeapSize flag "MinHeapSize" params
    else if Str.Contains flag "InitialHeapSize=" then
      store set_JavaInitialHeapSize flag "InitialHeapSize" params
    else if Str.Contains flag "MaxRAMPercentage=" then
      store set_JavaMaxHeapAsPercentage flag "MaxRAMPercentage" params
    else if Str.Contains flag "InitialRAMPercentage=" then
      store set_JavaInitialHeapAsPercentage flag "InitialRAMPercentage" params
    else if Str.Contains flag "MinRAMPercentage=" then
      store set_MinRAMPercentage flag "MinRAMPercentage" params
    else if Str.Contains flag "MaxRAMFraction=" then
      store_fraction Max flag params
    else if Str.Contains flag "InitialRAMFraction=" then
      store_fraction Initial flag params
    else if Str.Contains flag "MinRAMFraction=" then
      store_fraction Min flag params
    else params
  else params.

Definition parseGCType : list string -> string := GC.parseHotSpotGCType.

(** [parseVMFlagsOutput] parses the output of the [VM.flags] command. *)
Definition parseVMFlagsOutput (vmFlagsOutput : string) : JVMParams :=
  let flags := Str.Fields vmFlagsOutput in
  set_GCType (parseGCType flags) (fold_left step flags empty).

Definition ParseJVMParams (w : Attach) (pid : nat) : JVMParams :=
  match GetVMFlags w pid with
  | None => set_GCType "Unknown" empty
  | Some vmFlags =>
      if String.eqb (Str.TrimSpace vmFlags) "" then set_GCType "Unknown" empty
      else parseVMFlagsOutput vmFlags
  end.

End VMFlags.

(* ===================================================================== *)
(** * The vendor-aware engine *)
(* ===================================================================== *)

(** Second revision in [src/unnamed/part_000]. *)

Module Engine.

Record JVMParams : Type := mkJVMParams {
  JavaMaxHeapSize : string;
  JavaInitialHeapSize : string;
  JavaMaxHeapAsPercentage : string;
  JavaInitialHeapAsPercentage : string;
  GCType : string
}.

Definition empty : JVMParams := mkJVMParams "" "" "" "" "".

Definition set_JavaMaxHeapSize (v : string) (p : JVMParams) : JVMParams :=
  mkJVMParams v (JavaInitialHeapSize p) (JavaMaxHeapAsPercentage p)
    (JavaInitialHeapAsPercentage p) (GCType p).
Definition set_JavaInitialHeapSize (v : string) (p : JVMParams) : JVMParams :=
  mkJVMParams (JavaMaxHeapSize p) v (JavaMaxHeapAsPercentage p)
    (JavaInitialHeapAsPercentage p) (GCType p).
Definition set_JavaMaxHeapAsPercentage (v : string) (p : JVMParams) : JVMParams :=
  mkJVMParams (JavaMaxHeapSize p) (JavaInitialHeapSize p) v
    (JavaInitialHeapAsPercentage p) (GCType p).
Definition set_JavaInitialHeapAsPercentage (v : string) (p : JVMParams) : JVMParams :=
  mkJVMParams (JavaMaxHeapSize p) (JavaInitialHeapSize p) (JavaMaxHeapAsPercentage p)
    v (GCType p).
Definition set_GCType (v : string) (p : JVMParams) : JVMParams :=
  mkJVMParams (JavaMaxHeapSize p) (JavaInitialHeapSize p) (JavaMaxHeapAsPercentage p)
    (JavaInitialHeapAsPercentage p) v.

Inductive JVMVendor : Type :=
| JVMVendorUnknown
| JVMVendorHotSpot
| JVMVendorOpenJ9
| JVMVendorGraalVM.

Definition contains_any (s : string) (subs : list string) : bool :=
  existsb (Str.Contains s) subs.

(** [detectJVMVendor] identifies the JVM implementation from the VM flags
    output. *)
Definition detectJVMVendor (vmFlagsOutput : string) : JVMVendor :=
  let output := Str.ToLower vmFlagsOutput in
  if contains_any output ["openj9"; "eclipse"; "ibm"] then JVMVendorOpenJ9
  else if contains_any output ["graalvm"; "graal"] then JVMVendorGraalVM
  else if contains_any output ["hotspot"; "openjdk"; "oracle"] then JVMVendorHotSpot
  else if contains_any output ["-xx:maxheapsize="; "-xx:initialheapsize="]
  then JVMVendorHotSpot
  else JVMVendorUnknown.

Definition vendor_of_version (w : Attach) (pid : nat) : JVMVendor :=
  match GetVersion w pid with
  | Some version =>
      let version := Str.ToLower version in
      if contains_any version ["openj9"; "eclipse"; "ibm"] then JVMVendorOpenJ9
      else if Str.Contains version "graalvm" then JVMVendorGraalVM
      else if contains_any version ["hotspot"; "openjdk"] then JVMVendorHotSpot
      else JVMVendorUnknown
  | None => JVMVendorUnknown
  end.

(** [detectJVMVendorWithSystemProperties] *)
Definition detectJVMVendorWithSystemProperties (w : Attach) (pid : nat) : JVMVendor :=
  match GetSystemProperties w pid with
  | None => JVMVendorUnknown
  | Some props =>
      let props := Str.ToLower props in
      if Str.Contains props "java.vm.name" && contains_any props ["openj9"; "eclipse"; "ibm"]
      then JVMVendorOpenJ9
      else if Str.Contains props "java.vm.name" && Str.Contains props "graalvm"
      then JVMVendorGraalVM
      else if Str.Contains props "java.vm.name" && contains_any props ["hotspot"; "openjdk"]
      then JVMVendorHotSpot
      else if Str.Contains props "java.vendor" && contains_any props ["eclipse"; "ibm"]
      then JVMVendorOpenJ9
      else if Str.Contains props "java.vendor" && Str.Contains props "oracle"
      then JVMVendorHotSpot
      else vendor_of_version w pid
  end.

(** [^\d+$], [^(\d+(?:\.\d+)?)\s*([kmgt]?)b?$] and [^\d+] *)
Definition re_all_digits : regex := Seq Bol (Seq (Plus (Class digit)) Eol).
Definition re_size_unit : regex :=
  Seq Bol
      (Seq (Group 1 Cmdline.re_decimal)
           (Seq (Star (Class space))
                (Seq (Group 2 (Opt (Class (one_of "kmgt"))))
                     (Seq (Opt (Lit "b")) Eol)))).
Definition re_leading_digits : regex := Seq Bol (Plus (Class digit)).

(** The multiplication sign, U+00D7, as UTF-8 *)
Definition times : string := String (ascii_of_nat 195) (String (ascii_of_nat 151) "").

(** [parseSize] converts JVM size strings (like 1g, 512m). *)
Definition parseSize (sizeStr : string) : string :=
  if String.eqb sizeStr "" then ""
  else
    let sizeStr := Str.ToLower (Str.TrimSpace sizeStr) in
    if String.length sizeStr =? 0 then ""
    else if MatchString re_all_digits sizeStr then sizeStr
    else
      match FindStringSubmatch re_size_unit sizeStr with
      | [_; numStr; unit] =>
          let multiplier : Z :=
            (if String.eqb unit "k" then 1024
             else if String.eqb unit "m" then 1024 * 1024
             else if String.eqb unit "g" then 1024 * 1024 * 1024
             else if String.eqb unit "t" then 1024 * 1024 * 1024 * 1024
             else 1)%Z in
          let num := FindString re_leading_digits numStr in
          if negb (String.eqb num "") then num ++ times ++ F64.itoa multiplier
          else numStr ++ unit
      | _ => ""
      end.

(** [parseGCTypeFromCmdline] *)
Definition cmdlineGCs : list (string * string) :=
  [("-XX:+UseZGC", "ZGC");
   ("-XX:+UseShenandoahGC", "ShenandoahGC");
   ("-XX:+UseG1GC", "G1GC");
   ("-XX:+UseParallelGC", "ParallelGC");
   ("-XX:+UseParallelOldGC", "ParallelOldGC");
   ("-XX:+UseConcMarkSweepGC", "ConcMarkSweepGC");
   ("-XX:+UseSerialGC", "SerialGC");
   ("-Xgcpolicy:gencon", "Generational Concurrent (OpenJ9)");
   ("-Xgcpolicy:optthruput", "Throughput (OpenJ9)");
   ("-Xgcpolicy:optavgpause", "Average Pause (OpenJ9)");
   ("-Xgcpolicy:balanced", "Balanced (OpenJ9)")].

(** The [switch] on one argument: the first case it contains *)
Fixpoint first_case (arg : string) (cases : list (string * string)) : option string :=
  match cases with
  | [] => None
  | (sub, gc) :: cases' => if Str.Contains arg sub then Some gc else first_case arg cases'
  end.

Fixpoint parseGCTypeFromCmdline (args : list string) : string :=
  match args with
  | [] => "Unknown"
  | arg :: args' =>
      match first_case arg cmdlineGCs with
      | Some gc => gc
      | None => parseGCTypeFromCmdline args'
      end
  end.

(** The [switch] of [parseFromCmdline] on one argument *)
Definition cmdline_step (params : JVMParams) (arg : string) : JVMParams :=
  if Str.HasPrefix arg "-Xmx" then
    let size := parseSize (Str.TrimPrefix arg "-Xmx") in
    if negb (String.eqb size "") then set_JavaMaxHeapSize size params else params
  else if Str.HasPrefix arg "-Xms" then
    let size := parseSize (Str.TrimPrefix arg "-Xms") in
    if negb (String.eqb size "") then set_JavaInitialHeapSize size params else params
  else if Str.HasPrefix arg "-XX:MaxHeapSize=" then
    set_JavaMaxHeapSize (Str.TrimPrefix arg "-XX:MaxHeapSize=") params
  else if Str.HasPrefix arg "-XX:InitialHeapSize=" then
    set_JavaInitialHeapSize (Str.TrimPrefix arg "-XX:InitialHeapSize=") params
  else if Str.HasPrefix arg "-XX:MaxRAMPercentage=" then
    set_JavaMaxHeapAsPercentage (Str.TrimPrefix arg "-XX:MaxRAMPercentage=") params
  else if Str.HasPrefix arg "-XX:InitialRAMPercentage=" then
    set_JavaInitialHeapAsPercentage (Str.TrimPrefix arg "-XX:InitialRAMPercentage=") params
  else params.

(** [parseFromCmdline] extracts JVM parameters from the command line when
    [VM.flags] fails; the pid is only logged. *)
Definition parseFromCmdline (cmdline : string) (pid : nat) : JVMParams :=
  let args := Str.Fields cmdline in
  set_GCType (parseGCTypeFromCmdline args) (fold_left cmdline_step args empty).

(** [parseGCType] *)
Definition parseGCType (flags : list string) (vendor : JVMVendor) : string :=
  match vendor with
  | JVMVendorOpenJ9 => GC.parseOpenJ9GCType flags
  | _ => GC.parseHotSpotGCType flags
  end.

Definition store (set : string -> JVMParams -> JVMParams) (flag name : string)
    (params : JVMParams) : JVMParams :=
  let value := extractFlagValue flag name in
  if String.eqb value "" then params else set value params.

Definition hotspot_step (params : JVMParams) (flag : string) : JVMParams :=
  let flag := Str.TrimSpace flag in
  if String.eqb flag "" then params
  else if Str.HasPrefix flag "-XX:" then
    if Str.Contains flag "MaxHeapSize=" then
      store set_JavaMaxHeapSize flag "MaxHeapSize" params
    else if Str.Contains flag "MinHeapSize=" then
      store set_JavaInitialHeapSize flag "MinHeapSize" params
    else if Str.Contains flag "InitialHeapSize=" then
      store set_JavaInitialHeapSize flag "InitialHeapSize" params
    else if Str.Contains flag "MaxRAMPercentage=" then
      store set_JavaMaxHeapAsPercentage flag "MaxRAMPercentage" params
    else if Str.Contains flag "InitialRAMPercentage=" then
      store set_JavaInitialHeapAsPercentage flag "InitialRAMPercentage" params
    else params
  else params.

(** [parseHotSpotVMFlags] *)
Definition parseHotSpotVMFlags (vmFlagsOutput : string) : JVMParams :=
  fold_left hotspot_step (Str.Fields vmFlagsOutput) empty.

(** [extractOpenJ9Size] *)
Definition extractOpenJ9Size (flag pre : string) : string :=
  if negb (Str.HasPrefix flag pre) then ""
  else parseSize (Str.TrimPrefix flag pre).

Definition openj9_step (params : JVMParams) (flag : string) : JVMParams :=
  let flag := Str.TrimSpace flag in
  if String.eqb flag "" then params
  else if Str.Contains flag "-Xmx" then
    let value := extractOpenJ9Size flag "-Xmx" in
    if negb (String.eqb value "") then set_JavaMaxHeapSize value params else params
  else if Str.Contains flag "-Xms" then
    let value := extractOpenJ9Size flag "-Xms" in
    if negb (String.eqb value "") then set_JavaInitialHeapSize value params else params
  else if Str.HasPrefix flag "-XX:" && Str.Contains flag "=" then
    if Str.Contains flag "MaxHeapSize=" then
      store set_JavaMaxHeapSize flag "MaxHeapSize" params
    else if Str.Contains flag "InitialHeapSize=" then
      store set_JavaInitialHeapSize flag "InitialHeapSize" params
    else params
  else params.

(** [parseOpenJ9VMFlags] *)
Definition parseOpenJ9VMFlags (vmFlagsOutput : string) : JVMParams :=
  fold_left openj9_step (Str.Fields vmFlagsOutput) empty.

(** [parseGraalVMFlags] *)
Definition parseGraalVMFlags (vmFlagsOutput : string) : JVMParams :=
  parseHotSpotVMFlags vmFlagsOutput.

(** [parseVMFlagsOutput] *)
Definition parseVMFlagsOutput (vmFlagsOutput : string) (vendor : JVMVendor) : JVMParams :=
  if String.eqb (Str.TrimSpace vmFlagsOutput) "" then empty
  else
    let params :=
      match vendor with
      | JVMVendorOpenJ9 => parseOpenJ9VMFlags vmFlagsOutput
      | JVMVendorGraalVM => parseGraalVMFlags vmFlagsOutput
      | _ => parseHotSpotVMFlags vmFlagsOutput
      end in
    set_GCType (parseGCType (Str.Fields vmFlagsOutput) vendor) params.

(** The guard of the fallback: no heap size came out of the VM flags. *)
Definition noHeapSizes (params : JVMParams) : bool :=
  String.eqb (JavaMaxHeapSize params) "" && String.eqb (JavaInitialHeapSize params) "".

(** The body of the fallback: what the command line gives is copied over. *)
Definition fallback (params cmdlineParams : JVMParams) : JVMParams :=
  let params :=
    if negb (String.eqb (JavaMaxHeapSize cmdlineParams) "")
    then set_JavaMaxHeapSize (JavaMaxHeapSize cmdlineParams) params else params in
  let params :=
    if negb (String.eqb (JavaInitialHeapSize cmdlineParams) "")
    then set_JavaInitialHeapSize (JavaInitialHeapSize cmdlineParams) params else params in
  let params :=
    if negb (String.eqb (JavaMaxHeapAsPercentage cmdlineParams) "")
    then set_JavaMaxHeapAsPercentage (JavaMaxHeapAsPercentage cmdlineParams) params
    else params in
  let params :=
    if negb (String.eqb (JavaInitialHeapAsPercentage cmdlineParams) "")
    then set_JavaInitialHeapAsPercentage (JavaInitialHeapAsPercentage cmdlineParams) params
    else params in
  if String.eqb (GCType params) "Unknown" && negb (String.eqb (GCType cmdlineParams) "Unknown")
  then set_GCType (GCType cmdlineParams) params
  else params.

(** The vendor the engine settles on, once the VM flags are at hand *)
Definition vendor_of (w : Attach) (pid : nat) (vmFlags : string) : JVMVendor :=
  match detectJVMVendorWithSystemProperties w pid with
  | JVMVendorUnknown => detectJVMVendor vmFlags
  | vendor => vendor
  end.

(** [ParseJVMParams], the entry point *)
Definition ParseJVMParams (w : Attach) (cmdline : string) (pid : nat) : JVMParams :=
  match GetVMFlags w pid with
  | None => parseFromCmdline cmdline pid
  | Some vmFlags =>
      let vendor := vendor_of w pid vmFlags in
      let params := parseVMFlagsOutput vmFlags vendor in
      if noHeapSizes params then fallback params (parseFromCmdline cmdline pid)
      else params
  end.

End Engine.


(* ===================================================================== *)
(** * What a match is *)
(* ===================================================================== *)

(** [Match r i s c j s' c']: read from offset [i], where the input left is
    [s] and the registers are [c], the pattern [r] can consume the text up
    to offset [j], leaving [s'] and registers [c']. *)
Inductive Match : regex -> nat -> string -> caps -> nat -> string -> caps -> Prop :=
| M_Eps i s c : Match Eps i s c i s c
| M_Class p a i s c : p a = true -> Match (Class p) i (String a s) c (S i) s c
| M_Seq r1 r2 i s c j s1 c1 k s2 c2 :
    Match r1 i s c j s1 c1 -> Match r2 j s1 c1 k s2 c2 ->
    Match (Seq r1 r2) i s c k s2 c2
| M_AltL r1 r2 i s c j s1 c1 :
    Match r1 i s c j s1 c1 -> Match (Alt r1 r2) i s c j s1 c1
| M_AltR r1 r2 i s c j s1 c1 :
    Match r2 i s c j s1 c1 -> Match (Alt r1 r2) i s c j s1 c1
| M_Star0 r i s c : Match (Star r) i s c i s c
| M_StarS r i s c j s1 c1 k s2 c2 :
    Match r i s c j s1 c1 -> Match (Star r) j s1 c1 k s2 c2 ->
    Match (Star r) i s c k s2 c2
| M_Group n r i s c j s1 c1 :
    Match r i s c j s1 c1 -> Match (Group n r) i s c j s1 ((n, (i, j)) :: c1)
| M_Bol s c : Match Bol 0 s c 0 s c
| M_Eol i c : Match Eol i "" c i "" c.

(** A hit of [r] in [input]: a match of [r] read from the hit's start. *)
Definition is_hit (r : regex) (input : string) (h : hit) : Prop :=
  let '(b, e, rest, c) := h in
  Match r b (Str.drop b input) [] e rest c /\ Str.drop e input = rest.

(** A size text: digits, then at most one unit letter *)
Definition size_text (v : string) : Prop :=
  exists d ds u,
    v = String d ds ++ u /\ digit d = true /\ Str.all digit ds = true /\
    (u = "" \/ exists a, u = String a "" /\ one_of "kmgKMG" a = true).

(** Where a size flag stands: at the very start of the input, or right
    after one white-space byte, which the match takes in. *)
Definition flag_at (flag v : string) (b : nat) (input : string) : Prop :=
  exists rest,
    (b = 0 /\ input = flag ++ v ++ rest) \/
    (exists a, space a = true /\ Str.drop b input = String a (flag ++ v ++ rest)).

Ltac invm H := inversion H; subst; clear H.

(* ===================================================================== *)
(** * The specification's sentences, as stated *)
(* ===================================================================== *)

Section Statements.

Import Cmdline F64.

(** "If both are present, the absolute size is authoritative by default;
    the max-heap field is the -1 sentinel only when more than one absolute
    occurrence exists and the percentage flag's offset is greater than all
    of theirs." *)
Definition absolute_unless_trailing_percentage (input : string) : Prop :=
  maxHeapMatches input <> [] ->
  FindAllStringIndex maxRAMRegex input <> [] ->
  let r := parseJVMParamsFromString input in
  (JavaMaxHeapSize r = neg_one ->
     1 < List.length (maxHeapMatches input) /\
     forall o, In o (maxHeapMatches input) -> (snd o < maxRAMPercentagePos input)%Z) /\
  (JavaMaxHeapSize r <> neg_one ->
     parseMemorySize (fst (rightmost (maxHeapMatches input))) = Some (JavaMaxHeapSize r)).

(** "For the initial-heap kind, absolute size always wins when both are
    present." *)
Definition initial_absolute_always (input : string) : Prop :=
  initialHeapMatches input <> [] ->
  FindAllStringSubmatch (re_percentage "InitialRAMPercentage") input <> [] ->
  let r := parseJVMParamsFromString input in
  JavaInitialHeapSize r <> neg_one /\
  parseMemorySize (fst (rightmost (initialHeapMatches input))) = Some (JavaInitialHeapSize r).

(** "A size flag whose value contains a decimal point or an unrecognized
    unit is never captured as a heap-size occurrence and contributes no
    value." *)
Definition never_captured (input : string) : Prop :=
  maxHeapMatches input = [] /\
  JavaMaxHeapSize (parseJVMParamsFromString input) = zero.

(** The offsets of the occurrences all lie before [pos]. *)
Definition all_before (pos : Z) (l : list occurrence) : bool :=
  forallb (fun o : occurrence => (snd o <? pos)%Z) l.

(** The four spellings of a size flag *)
Definition size_flags : list string :=
  ["-Xmx"; "-XX:MaxHeapSize="; "-Xms"; "-XX:MinHeapSize="].

(** ** Garbage-collector classification *)




(** ** The orchestrator's fallback *)

(** "No max-heap and no initial-heap signal at all, neither absolute nor
    percentage" *)
Definition no_signal (p : Engine.JVMParams) : bool :=
  String.eqb (Engine.JavaMaxHeapSize p) "" &&
  String.eqb (Engine.JavaInitialHeapSize p) "" &&
  String.eqb (Engine.JavaMaxHeapAsPercentage p) "" &&
  String.eqb (Engine.JavaInitialHeapAsPercentage p) "".

Definition fill (live cmd : string) : string :=
  if String.eqb live "" then cmd else live.

(** "Any field left unset by the live-dump pass is filled from the
    fallback pass; fields already set are not overwritten; if the live
    dump yielded Unknown, take the fallback's classification." *)
Definition merge_as_specified (live cmd : Engine.JVMParams) : Engine.JVMParams :=
  if no_signal live then
    Engine.mkJVMParams
      (fill (Engine.JavaMaxHeapSize live) (Engine.JavaMaxHeapSize cmd))
      (fill (Engine.JavaInitialHeapSize live) (Engine.JavaInitialHeapSize cmd))
      (fill (Engine.JavaMaxHeapAsPercentage live) (Engine.JavaMaxHeapAsPercentage cmd))
      (fill (Engine.JavaInitialHeapAsPercentage live) (Engine.JavaInitialHeapAsPercentage cmd))
      (if String.eqb (Engine.GCType live) "Unknown" then Engine.GCType cmd
       else Engine.GCType live)
  else live.

Definition falls_back_as_specified (w : Attach) (cmdline : string) (pid : nat) : Prop :=
  forall vmFlags, GetVMFlags w pid = Some vmFlags ->
    Engine.ParseJVMParams w cmdline pid =
    merge_as_specified
      (Engine.parseVMFlagsOutput vmFlags (Engine.vendor_of w pid vmFlags))
      (Engine.parseFromCmdline cmdline pid).



Definition answering (vmFlags : string) : Attach :=
  mkAttach (fun _ => Some vmFlags) (fun _ => None) (fun _ => None).


(** ** Percentage and fraction flags of the live-flags parser *)








(** ** The text handed to the command-line parser *)

Definition nonempty (s : string) : bool := negb (String.eqb s "").

(** The values of the four variables, in the order they are read; a
    variable that is not set reads as empty. *)
Definition env_values (env : gmap string string) : list string :=
  map (fun envVar => default "" (env !! envVar)) Cmdline.envVars.

(** The part of the text that comes from the environment *)
Definition env_part (env : gmap string string) : string :=
  Str.Join (List.filter nonempty (env_values env)) " ".

(** The size-flag occurrences of both heap kinds *)
Definition size_occurrences (input : string) : list Cmdline.occurrence :=
  (Cmdline.maxHeapMatches input ++ Cmdline.initialHeapMatches input)%list.

(** The flag of an occurrence is spelled out in [text]. *)
Definition spelled_in (text : string) (o : Cmdline.occurrence) : Prop :=
  exists flag t rest, In flag size_flags /\ Str.drop t text = flag ++ fst o ++ rest.


End Statements.

Lemma star_loop_sound (body : nat -> string -> caps -> cont -> option result) r :
  (forall i s c k x, body i s c k = Some x ->
     exists j s1 c1, Match r i s c j s1 c1 /\ k j s1 c1 = Some x) ->
  forall fuel k i s c x,
    star_loop body k fuel i s c = Some x ->
    exists j s1 c1, Match (Star r) i s c j s1 c1 /\ k j s1 c1 = Some x.
Proof.
  intros Hbody fuel k. induction fuel as [|f IH]; intros i s c x H; simpl in H.
  - exists i, s, c. split; [constructor | exact H].
  - destruct (body i s c _) as [y|] eqn:E.
    + inversion H; subst y; clear H.
      apply Hbody in E. destruct E as (j & s1 & c1 & Hm & Hk).
      destruct (j =? i); [discriminate|].
      apply IH in Hk. destruct Hk as (j2 & s2 & c2 & Hm2 & Hk2).
      exists j2, s2, c2. split; [eapply M_StarS; eauto | exact Hk2].
    + exists i, s, c. split; [constructor | exact H].
Qed.

Lemma run_sound r : forall i s c k x,
  run r i s c k = Some x ->
  exists j s1 c1, Match r i s c j s1 c1 /\ k j s1 c1 = Some x.
Proof.
  induction r as [|p|r1 IH1 r2 IH2|r1 IH1 r2 IH2|r IH|n r IH| |];
    intros i s c k x H; simpl in H.
  - exists i, s, c. split; [constructor | exact H].
  - destruct s as [|a s']; [discriminate|].
    destruct (p a) eqn:E; [|discriminate].
    exists (S i), s', c. split; [constructor; exact E | exact H].
  - apply IH1 in H. destruct H as (j & s1 & c1 & Hm & Hk).
    apply IH2 in Hk. destruct Hk as (j2 & s2 & c2 & Hm2 & Hk2).
    exists j2, s2, c2. split; [econstructor; eauto | exact Hk2].
  - destruct (run r1 i s c k) as [y|] eqn:E.
    + inversion H; subst y. apply IH1 in E. destruct E as (j & s1 & c1 & Hm & Hk).
      exists j, s1, c1. split; [apply M_AltL; exact Hm | exact Hk].
    + apply IH2 in H. destruct H as (j & s1 & c1 & Hm & Hk).
      exists j, s1, c1. split; [apply M_AltR; exact Hm | exact Hk].
  - eapply star_loop_sound; eauto.
  - apply IH in H. destruct H as (j & s1 & c1 & Hm & Hk).
    exists j, s1, ((n, (i, j)) :: c1). split; [constructor; exact Hm | exact Hk].
  - destruct (i =? 0) eqn:E; [|discriminate]. apply Nat.eqb_eq in E. subst i.
    exists 0, s, c. split; [constructor | exact H].
  - destruct s; [|discriminate]. exists i, "", c. split; [constructor | exact H].
Qed.

(** ** Byte-string lemmas *)

Lemma app_nil_l (t : string) : "" ++ t = t.
Proof. reflexivity. Qed.

Lemma app_cons (a : ascii) (s t : string) : String a s ++ t = String a (s ++ t).
Proof. reflexivity. Qed.

Lemma length_app (s t : string) : String.length (s ++ t) = String.length s + String.length t.
Proof.
  induction s as [|a s IH]; [reflexivity|]. rewrite app_cons. simpl. now rewrite IH.
Qed.

Lemma app_assoc_s (s t u : string) : (s ++ t) ++ u = s ++ t ++ u.
Proof.
  induction s as [|a s IH]; [reflexivity|]. rewrite !app_cons. now rewrite IH.
Qed.

Lemma app_empty_r (s : string) : s ++ "" = s.
Proof.
  induction s as [|a s IH]; [reflexivity|]. rewrite app_cons. now rewrite IH.
Qed.

Lemma drop_0 s : Str.drop 0 s = s.
Proof. now destruct s. Qed.

Lemma drop_app_length (w s : string) : Str.drop (String.length w) (w ++ s) = s.
Proof.
  induction w as [|a w IH]; [apply drop_0|]. rewrite app_cons. simpl. exact IH.
Qed.

Lemma take_app_length (w s : string) : Str.take (String.length w) (w ++ s) = w.
Proof.
  induction w as [|a w IH]; [now destruct s|]. rewrite app_cons. simpl. now rewrite IH.
Qed.

Lemma drop_drop (a b : nat) (s : string) : Str.drop a (Str.drop b s) = Str.drop (b + a) s.
Proof.
  revert s. induction b as [|b IH]; intros s.
  - now rewrite drop_0.
  - destruct s as [|x s]; simpl; [now destruct a | apply IH].
Qed.

Lemma drop_S_cons (n : nat) (s : string) a t :
  Str.drop n s = String a t -> Str.drop (S n) s = t.
Proof.
  intros H. replace (S n) with (n + 1) by lia. rewrite <- drop_drop, H. reflexivity.
Qed.

Lemma slice_of_drop (b e : nat) (input w rest : string) :
  Str.drop b input = w ++ rest -> e = b + String.length w ->
  Str.slice b e input = w.
Proof.
  intros Hd ->. unfold Str.slice. rewrite Hd.
  replace (b + String.length w - b) with (String.length w) by lia.
  apply take_app_length.
Qed.

(** ** A match consumes a prefix of the input left *)

Lemma Match_app r i s c j s1 c1 :
  Match r i s c j s1 c1 ->
  exists w, s = w ++ s1 /\ j = i + String.length w.
Proof.
  induction 1.
  - exists "". split; [reflexivity | simpl; lia].
  - exists (String a ""). split; [reflexivity | simpl; lia].
  - destruct IHMatch1 as (w1 & -> & ->). destruct IHMatch2 as (w2 & -> & ->).
    exists (w1 ++ w2). rewrite app_assoc_s, length_app. split; [reflexivity | lia].
  - assumption.
  - assumption.
  - exists "". split; [reflexivity | simpl; lia].
  - destruct IHMatch1 as (w1 & -> & ->). destruct IHMatch2 as (w2 & -> & ->).
    exists (w1 ++ w2). rewrite app_assoc_s, length_app. split; [reflexivity | lia].
  - assumption.
  - exists "". split; [reflexivity | simpl; lia].
  - exists "". split; [reflexivity | simpl; lia].
Qed.

(** ** What [search] and [allMatches] return *)

Lemma Match_drop r input b e rest c :
  Match r b (Str.drop b input) [] e rest c -> Str.drop e input = rest.
Proof.
  intros H. apply Match_app in H. destruct H as (w & Hs & ->).
  rewrite <- drop_drop, Hs. apply drop_app_length.
Qed.

Lemma search_sound r input : forall s i h,
  s = Str.drop i input ->
  search r i s = Some h -> is_hit r input h /\ i <= fst (fst (fst h)).
Proof.
  induction s as [|a s IH]; intros i h Hs H; simpl in H.
  - destruct (run r i "" [] accept) as [[[j s1] c1]|] eqn:E; [|discriminate].
    inversion H; subst h; clear H. simpl.
    apply run_sound in E. destruct E as (j' & s' & c' & Hm & Hk).
    unfold accept in Hk. inversion Hk; subst. rewrite Hs in Hm.
    split; [split; [exact Hm | eapply Match_drop; eauto] | lia].
  - destruct (run r i (String a s) [] accept) as [[[j s1] c1]|] eqn:E.
    + inversion H; subst h; clear H. simpl.
      apply run_sound in E. destruct E as (j' & s' & c' & Hm & Hk).
      unfold accept in Hk. inversion Hk; subst. rewrite Hs in Hm.
      split; [split; [exact Hm | eapply Match_drop; eauto] | lia].
    + apply IH in H.
      * destruct H as [H1 H2]. split; [exact H1 | lia].
      * symmetry. eapply drop_S_cons. symmetry. exact Hs.
Qed.

Lemma allMatches_sound r input : forall fuel pos s prev h,
  s = Str.drop pos input ->
  In h (allMatches fuel r pos s prev) -> is_hit r input h.
Proof.
  induction fuel as [|f IH]; intros pos s prev h Hs Hin; simpl in Hin; [contradiction|].
  destruct (search r pos s) as [[[[b e] rest] c]|] eqn:E; [|contradiction].
  pose proof (search_sound r input s pos _ Hs E) as [Hh _].
  destruct (e =? pos) eqn:Ee.
  - assert (Hk : forall l, (forall x, In x l -> is_hit r input x) ->
               In h (if bool_decide (prev = Some b) then l else (b, e, rest, c) :: l) ->
               is_hit r input h).
    { intros l Hl Hx. destruct (bool_decide (prev = Some b)); [auto|].
      destruct Hx as [<-|Hx]; auto. }
    destruct s as [|a s'].
    + eapply Hk; [|exact Hin]. intros x [].
    + eapply Hk; [|exact Hin]. intros x Hx. eapply IH; [|exact Hx].
      symmetry. eapply drop_S_cons. symmetry. exact Hs.
  - destruct Hin as [<-|Hin]; [exact Hh|].
    eapply IH; [|exact Hin]. destruct Hh as [_ Hd]. symmetry. exact Hd.
Qed.

Lemma all_sound r input h : In h (Regexp.all r input) -> is_hit r input h.
Proof. unfold Regexp.all. apply allMatches_sound. now rewrite drop_0. Qed.

(** ** Inversion of the pattern shapes the parsers use *)

Lemma Match_Lit w : forall i s c j s1 c1,
  Match (Lit w) i s c j s1 c1 -> s = w ++ s1 /\ j = i + String.length w /\ c1 = c.
Proof.
  induction w as [|a w IH]; intros i s c j s1 c1 H; simpl in H.
  - invm H. repeat split; simpl; lia.
  - invm H. match goal with H : Match (Class _) _ _ _ _ _ _ |- _ => invm H end.
    match goal with H : Match (Lit _) _ _ _ _ _ _ |- _ => apply IH in H; destruct H as (-> & -> & ->) end.
    match goal with H : Ascii.eqb _ _ = true |- _ => apply Ascii.eqb_eq in H; subst end.
    rewrite app_cons. repeat split; simpl; lia.
Qed.

Lemma Match_Star_Class p i s c j s1 c1 :
  Match (Star (Class p)) i s c j s1 c1 ->
  exists w, s = w ++ s1 /\ Str.all p w = true /\ j = i + String.length w /\ c1 = c.
Proof.
  remember (Star (Class p)) as r eqn:Hr. induction 1; try discriminate.
  - exists "". repeat split; simpl; lia.
  - invm Hr. match goal with H : Match (Class _) _ _ _ _ _ _ |- _ => invm H end.
    destruct (IHMatch2 eq_refl) as (w & -> & Hw & -> & ->).
    exists (String a w). rewrite app_cons. repeat split; simpl; try lia.
    now rewrite Hw, andb_true_r.
Qed.

Lemma Match_Plus_Class p i s c j s1 c1 :
  Match (Plus (Class p)) i s c j s1 c1 ->
  exists a w, s = String a w ++ s1 /\ p a = true /\ Str.all p w = true /\
              j = i + S (String.length w) /\ c1 = c.
Proof.
  intros H. invm H.
  match goal with H : Match (Class _) _ _ _ _ _ _ |- _ => invm H end.
  match goal with H : Match (Star _) _ _ _ _ _ _ |- _ =>
    apply Match_Star_Class in H; destruct H as (w & -> & Hw & -> & ->) end.
  exists a, w. rewrite app_cons. repeat split; auto; lia.
Qed.

Lemma Match_Opt_Class p i s c j s1 c1 :
  Match (Opt (Class p)) i s c j s1 c1 ->
  exists u, s = u ++ s1 /\ j = i + String.length u /\ c1 = c /\
            (u = "" \/ exists a, u = String a "" /\ p a = true).
Proof.
  intros H. invm H.
  - match goal with H : Match (Class _) _ _ _ _ _ _ |- _ => invm H end.
    exists (String a ""). repeat split; simpl; try lia. right. eauto.
  - match goal with H : Match Eps _ _ _ _ _ _ |- _ => invm H end.
    exists "". repeat split; simpl; try lia. now left.
Qed.

Lemma ngroups_Lit w : ngroups (Lit w) = 0.
Proof. induction w as [|a w IH]; simpl; [reflexivity | now rewrite IH]. Qed.

Lemma Match_size_flag flag input b e rest c :
  Match (Cmdline.re_size_flag flag) b (Str.drop b input) [] e rest c ->
  exists v, Regexp.group_text input c 1 = v /\ size_text v /\ flag_at flag v b input.
Proof.
  intros H. unfold Cmdline.re_size_flag in H. invm H.
  match goal with H : Match (Seq (Lit _) _) _ _ _ _ _ _ |- _ => invm H end.
  match goal with H : Match (Lit _) _ _ _ _ _ _ |- _ =>
    apply Match_Lit in H; destruct H as (Hs1 & -> & ->) end.
  match goal with H : Match (Group _ _) _ _ _ _ _ _ |- _ => invm H end.
  match goal with H : Match (Seq (Plus _) _) _ _ _ _ _ _ |- _ => invm H end.
  match goal with H : Match (Plus _) _ _ _ _ _ _ |- _ =>
    apply Match_Plus_Class in H; destruct H as (d & ds & Hs2 & Hd & Hds & -> & ->) end.
  match goal with H : Match (Opt _) _ _ _ _ _ _ |- _ =>
    apply Match_Opt_Class in H; destruct H as (u & Hs3 & -> & -> & Hu) end.
  subst.
  exists (String d ds ++ u).
  match goal with H : Match (Alt Bol _) _ _ _ _ _ _ |- _ => invm H end.
  - match goal with H : Match Bol _ _ _ _ _ _ |- _ => invm H end.
    match goal with H : Str.drop 0 _ = _ |- _ => rewrite drop_0 in H end.
    subst input. split; [|split].
    + unfold Regexp.group_text. simpl cap.
      eapply slice_of_drop.
      * rewrite drop_app_length, <- app_assoc_s. reflexivity.
      * rewrite length_app. simpl. lia.
    + exists d, ds, u. auto.
    + exists rest. left. split; [reflexivity|]. now rewrite app_assoc_s.
  - match goal with H : Match (Class _) _ _ _ _ _ _ |- _ => invm H end.
    match goal with H : String _ _ = Str.drop _ _ |- _ => symmetry in H; rename H into Hdrop end.
    split; [|split].
    + unfold Regexp.group_text. simpl cap.
      eapply slice_of_drop.
      * replace (S (b + String.length flag)) with (b + S (String.length flag)) by lia.
        rewrite <- drop_drop, Hdrop. simpl.
        rewrite drop_app_length. rewrite <- app_assoc_s. reflexivity.
      * rewrite length_app. simpl. lia.
    + exists d, ds, u. auto.
    + exists rest. right. exists a. split; [assumption|]. now rewrite Hdrop, app_assoc_s.
Qed.

(** ** The occurrences of a size flag *)

Lemma zip_map_same {A B C : Type} (f : A -> B) (g : A -> C) (l : list A) :
  zip (map f l) (map g l) = map (fun x => (f x, g x)) l.
Proof. induction l as [|x l IH]; simpl; [reflexivity | now rewrite IH]. Qed.

Lemma ngroups_size_flag flag : ngroups (Cmdline.re_size_flag flag) = 1.
Proof. unfold Cmdline.re_size_flag. simpl. now rewrite ngroups_Lit. Qed.

Lemma occurrences_hit flag input v p :
  In (v, p) (Cmdline.occurrences (Cmdline.re_size_flag flag) input) ->
  exists b e rest c,
    In (b, e, rest, c) (Regexp.all (Cmdline.re_size_flag flag) input) /\
    v = Regexp.group_text input c 1 /\ p = Z.of_nat b.
Proof.
  unfold Cmdline.occurrences, FindAllStringSubmatch, FindAllStringIndex.
  rewrite zip_map_same. intros H. apply in_flat_map in H.
  destruct H as ([m idx] & Hin & Hv). apply in_map_iff in Hin.
  destruct Hin as ([[[b e] rest] c] & Heq & Hin). inversion Heq; subst; clear Heq.
  cbn [fst snd] in Hv. rewrite ngroups_Lit in Hv.
  simpl in Hv. destruct Hv as [Hv|[]]. inversion Hv; subst. eauto 10.
Qed.

Lemma occurrences_sound flag input v p :
  In (v, p) (Cmdline.occurrences (Cmdline.re_size_flag flag) input) ->
  exists b, p = Z.of_nat b /\ size_text v /\ flag_at flag v b input.
Proof.
  intros H. apply occurrences_hit in H. destruct H as (b & e & rest & c & Hin & -> & ->).
  apply all_sound in Hin. destruct Hin as [Hm _].
  apply Match_size_flag in Hm. destruct Hm as (v & <- & Hv & Hf).
  exists b. auto.
Qed.

(** ** The rightmost occurrence *)

Lemma rightmost_from_spec l : forall v0 p0,
  let '(v, p) := Cmdline.rightmost_from l v0 p0 in
  (p0 <= p)%Z /\ (forall o, In o l -> (snd o <= p)%Z) /\
  ((v, p) = (v0, p0) \/ In (v, p) l).
Proof.
  induction l as [|[v1 p1] l IH]; intros v0 p0; simpl.
  - split; [lia|]. split; [intros o []|now left].
  - destruct (p1 >? p0)%Z eqn:E.
    + specialize (IH v1 p1). destruct (Cmdline.rightmost_from l v1 p1) as [v p].
      destruct IH as (H1 & H2 & H3). split; [lia|]. split.
      * intros o [<-|Ho]; simpl; [lia | auto].
      * right. destruct H3 as [H3|H3]; [left; now inversion H3 | now right].
    + specialize (IH v0 p0). destruct (Cmdline.rightmost_from l v0 p0) as [v p].
      destruct IH as (H1 & H2 & H3). split; [lia|]. split.
      * intros o [<-|Ho]; simpl; [lia | auto].
      * destruct H3 as [H3|H3]; [now left | right; now right].
Qed.

Lemma rightmost_spec l :
  l <> [] -> (forall o, In o l -> (0 <= snd o)%Z) ->
  In (Cmdline.rightmost l) l /\
  forall o, In o l -> (snd o <= snd (Cmdline.rightmost l))%Z.
Proof.
  intros Hne Hpos. unfold Cmdline.rightmost.
  pose proof (rightmost_from_spec l "" (-1)%Z) as H.
  destruct (Cmdline.rightmost_from l "" (-1)) as [v p]. destruct H as (_ & H2 & H3).
  split; [|exact H2]. destruct H3 as [H3|H3]; [|exact H3].
  inversion H3; subst. destruct l as [|o l]; [contradiction|].
  specialize (H2 o (or_introl eq_refl)). specialize (Hpos o (or_introl eq_refl)). lia.
Qed.

Lemma occurrences_nonneg re input o :
  In o (Cmdline.occurrences re input) -> (0 <= snd o)%Z.
Proof.
  unfold Cmdline.occurrences. intros H. apply in_flat_map in H.
  destruct H as ([m idx] & _ & Hv). simpl in Hv.
  destruct m as [|? [|value ?]]; try contradiction.
  destruct Hv as [<-|[]]. simpl. lia.
Qed.

Lemma maxHeapMatches_nonneg input o :
  In o (Cmdline.maxHeapMatches input) -> (0 <= snd o)%Z.
Proof.
  unfold Cmdline.maxHeapMatches. intros H. apply in_app_or in H.
  destruct H; eapply occurrences_nonneg; eauto.
Qed.

Lemma initialHeapMatches_nonneg input o :
  In o (Cmdline.initialHeapMatches input) -> (0 <= snd o)%Z.
Proof.
  unfold Cmdline.initialHeapMatches. intros H. apply in_app_or in H.
  destruct H; eapply occurrences_nonneg; eauto.
Qed.

(** ** Signs of the floats the converters produce *)

Lemma binary_round_aux_nonneg mx ex lx :
  F64.is_neg (binary_round_aux F64.prec F64.emax false mx ex lx) = false.
Proof.
  unfold binary_round_aux.
  destruct (shr_fexp _ _ _ _ _) as [mrs e1].
  destruct (shr_fexp _ _ _ _ _) as [mrs2 e2].
  destruct (shr_m mrs2); [reflexivity| |reflexivity].
  destruct (e2 <=? _)%Z; reflexivity.
Qed.

Lemma binary_normalize_nonneg m e :
  (0 <= m)%Z -> F64.is_neg (binary_normalize F64.prec F64.emax m e false) = false.
Proof.
  intros Hm. destruct m as [|p|p]; [reflexivity| |lia].
  unfold binary_normalize, binary_round.
  destruct (shl_align _ _ _) as [mz ez]. apply binary_round_aux_nonneg.
Qed.

Lemma of_ratio_nonneg n d :
  (0 <= n)%Z -> (0 < d)%Z -> F64.is_neg (F64.of_ratio false n d) = false.
Proof.
  intros Hn Hd. unfold F64.of_ratio. destruct (n =? 0)%Z; [reflexivity|].
  set (k := (Z.log2 d + 64)%Z).
  assert (Hq : (0 <= (n * 2 ^ k) / d)%Z).
  { apply Z.div_pos; [|exact Hd]. apply Z.mul_nonneg_nonneg; [exact Hn|].
    apply Z.pow_nonneg. lia. }
  unfold Z.div in Hq. destruct (Z.div_eucl (n * 2 ^ k) d) as [q r]. simpl in Hq.
  apply binary_normalize_nonneg. destruct (r =? 0)%Z; lia.
Qed.

Lemma scaled_nonneg m base e :
  (0 <= m)%Z -> (0 < base)%Z -> F64.is_neg (F64.scaled false m base e) = false.
Proof.
  intros Hm Hb. unfold F64.scaled. destruct (0 <=? e)%Z eqn:E.
  - apply of_ratio_nonneg; [|lia]. apply Z.mul_nonneg_nonneg; [exact Hm|].
    apply Z.pow_nonneg. lia.
  - apply of_ratio_nonneg; [exact Hm|]. apply Z.pow_pos_nonneg; lia.
Qed.

Lemma dec_val_nonneg a v : F64.dec_val a = Some v -> (0 <= v)%Z.
Proof.
  unfold F64.dec_val. destruct (_ && _); [|discriminate]. intros [= <-]. lia.
Qed.

Lemma digit_val_nonneg hex a v : F64.digit_val hex a = Some v -> (0 <= v)%Z.
Proof.
  unfold F64.digit_val, F64.hex_val. destruct hex; [|apply dec_val_nonneg].
  destruct (F64.dec_val a) eqn:E.
  - intros [= <-]. eapply dec_val_nonneg; eauto.
  - destruct (_ && _); [|discriminate]. intros [= <-]. lia.
Qed.

Lemma mantissa_nonneg hex : forall s m sawdot fd sd,
  (0 <= m)%Z -> (0 <= fst (fst (fst (F64.mantissa hex s m sawdot fd sd))))%Z.
Proof.
  induction s as [|a s IH]; intros m sawdot fd sd Hm; simpl; [exact Hm|].
  destruct (Ascii.eqb a "_"); [now apply IH|].
  destruct (Ascii.eqb a ".").
  - destruct sawdot; [exact Hm | now apply IH].
  - destruct (F64.digit_val hex a) as [v|] eqn:E; [|exact Hm].
    apply IH. apply digit_val_nonneg in E. destruct hex; lia.
Qed.

(** A text that starts with a digit is not one of the special spellings,
    and has no sign. *)
Lemma digit_cases d :
  digit d = true ->
  d = "0"%char \/ d = "1"%char \/ d = "2"%char \/ d = "3"%char \/ d = "4"%char \/
  d = "5"%char \/ d = "6"%char \/ d = "7"%char \/ d = "8"%char \/ d = "9"%char.
Proof.
  destruct d as [[] [] [] [] [] [] [] []]; vm_compute; intros H;
    try discriminate; tauto.
Qed.

Lemma ParseFloat_digit_nonneg d s x :
  digit d = true -> F64.ParseFloat (String d s) = Some x -> F64.is_neg x = false.
Proof.
  intros Hd. apply digit_cases in Hd.
  assert (Hsp : F64.special (String d s) = None).
  { destruct Hd as [->|[->|[->|[->|[->|[->|[->|[->|[->| ->]]]]]]]]]; reflexivity. }
  unfold F64.ParseFloat. rewrite Hsp. unfold F64.number.
  assert (Hsign : (let '(neg, s1) :=
             match String d s with
             | String "+" r => (false, r)
             | String "-" r => (true, r)
             | _ => (false, String d s)
             end in neg) = false).
  { destruct Hd as [->|[->|[->|[->|[->|[->|[->|[->|[->| ->]]]]]]]]]; reflexivity. }
  destruct (match String d s with
            | String "+" r => (false, r)
            | String "-" r => (true, r)
            | _ => (false, String d s)
            end) as [neg s1]. subst neg.
  destruct (match s1 with
            | String "0" (String x0 (String y r)) =>
                if F64.lower_eq x0 "x" then (true, String y r) else (false, s1)
            | _ => (false, s1)
            end) as [hex s2].
  pose proof (mantissa_nonneg hex s2 0 false 0 false ltac:(lia)) as Hm.
  destruct (F64.mantissa hex s2 0 false 0 false) as [[[m fd] sawdigits] s3].
  simpl in Hm. destruct (negb sawdigits); [discriminate|].
  destruct (F64.exponent _ hex s3) as [[e [|? ?]]|]; try discriminate.
  destruct (_ && _); [discriminate|].
  intros H.
  assert (Hx : F64.is_neg (if hex then F64.scaled false m 2 (e - 4 * fd)
                           else F64.scaled false m 10 (e - fd)) = false).
  { destruct hex; apply scaled_nonneg; lia. }
  destruct (if hex then _ else _); try discriminate; now inversion H; subst.
Qed.

Lemma mul_c1024_nonneg x :
  F64.is_neg x = false -> F64.is_neg (F64.mul x F64.c1024) = false.
Proof.
  unfold F64.mul, F64.c1024. destruct x as [s|s| |s m e]; simpl; intros H; subst;
    try reflexivity.
  apply binary_round_aux_nonneg.
Qed.

Lemma neg_one_is_neg : F64.is_neg F64.neg_one = true.
Proof. reflexivity. Qed.

(** ** [parseMemorySize] never yields a negative size *)

Lemma Match_decimal i s c j s1 c1 :
  Match Cmdline.re_decimal i s c j s1 c1 ->
  exists d w, s = String d w ++ s1 /\ digit d = true /\
              j = i + S (String.length w) /\ c1 = c.
Proof.
  intros H. unfold Cmdline.re_decimal in H. invm H.
  match goal with H : Match (Plus _) _ _ _ _ _ _ |- _ =>
    apply Match_Plus_Class in H; destruct H as (d & ds & -> & Hd & Hds & -> & ->) end.
  match goal with H : Match (Opt _) _ _ _ _ _ _ |- _ => invm H end.
  - match goal with H : Match (Seq _ (Plus _)) _ _ _ _ _ _ |- _ => invm H end.
    match goal with H : Match (Seq (Class _) Eps) _ _ _ _ _ _ |- _ =>
      change (Seq (Class (Ascii.eqb ".")) Eps) with (Lit ".") in H;
      apply Match_Lit in H; destruct H as (-> & -> & ->) end.
    match goal with H : Match (Plus _) _ _ _ _ _ _ |- _ =>
      apply Match_Plus_Class in H; destruct H as (d2 & ds2 & -> & Hd2 & Hds2 & -> & ->) end.
    exists d, (ds ++ "." ++ String d2 ds2).
    rewrite !app_cons, !app_assoc_s, !length_app. simpl.
    repeat split; auto; lia.
  - match goal with H : Match Eps _ _ _ _ _ _ |- _ => invm H end.
    exists d, ds. repeat split; auto.
Qed.

Lemma memory_size_groups sizeStr whole num unit :
  FindStringSubmatch Cmdline.re_memory_size sizeStr = [whole; num; unit] ->
  exists d w, num = String d w /\ digit d = true.
Proof.
  unfold FindStringSubmatch.
  destruct (search Cmdline.re_memory_size 0 sizeStr) as [[[[b e] rest] c]|] eqn:E;
    [|discriminate].
  apply (search_sound _ sizeStr) in E; [|now rewrite drop_0].
  destruct E as [[Hm _] _]. intros H. simpl in H. inversion H; subst; clear H.
  unfold Cmdline.re_memory_size in Hm. invm Hm.
  match goal with H : Match Bol _ _ _ _ _ _ |- _ => invm H end.
  match goal with H : Match (Seq (Group 1 _) _) _ _ _ _ _ _ |- _ => invm H end.
  match goal with H : Match (Group 1 _) _ _ _ _ _ _ |- _ => invm H end.
  match goal with H : Match Cmdline.re_decimal _ _ _ _ _ _ |- _ =>
    apply Match_decimal in H; destruct H as (d & w & Hs & Hd & -> & ->) end.
  match goal with H : Match (Seq (Group 2 _) _) _ _ _ _ _ _ |- _ => invm H end.
  match goal with H : Match (Group 2 _) _ _ _ _ _ _ |- _ => invm H end.
  match goal with H : Match (Opt _) _ _ _ _ _ _ |- _ =>
    apply Match_Opt_Class in H; destruct H as (u & Hs2 & -> & -> & Hu) end.
  match goal with H : Match Eol _ _ _ _ _ _ |- _ => invm H end.
  exists d, w. split; [|exact Hd].
  unfold group_text. simpl cap.
  eapply slice_of_drop; [rewrite drop_0; exact Hs | simpl; lia].
Qed.

Lemma parseMemorySize_nonneg sizeStr size :
  Cmdline.parseMemorySize sizeStr = Some size -> F64.is_neg size = false.
Proof.
  unfold Cmdline.parseMemorySize. destruct (String.eqb sizeStr ""); [discriminate|].
  destruct (FindStringSubmatch Cmdline.re_memory_size sizeStr)
    as [|whole [|num [|unit [|? ?]]]] eqn:E; try discriminate.
  apply memory_size_groups in E. destruct E as (d & w & -> & Hd).
  destruct (F64.ParseFloat (String d w)) as [value|] eqn:Ep; [|discriminate].
  apply ParseFloat_digit_nonneg in Ep; [|exact Hd].
  repeat match goal with
         | |- (if ?b then _ else _) = _ -> _ => destruct b
         end; intros [= <-]; auto using mul_c1024_nonneg.
Qed.

Lemma resolveHeap_nonneg l : F64.is_neg (fst (Cmdline.resolveHeap l)) = false.
Proof.
  unfold Cmdline.resolveHeap. destruct l as [|o l]; [reflexivity|].
  destruct (Cmdline.rightmost (o :: l)) as [v p].
  destruct (Cmdline.parseMemorySize v) as [size|] eqn:E; [|reflexivity].
  simpl. eapply parseMemorySize_nonneg; eauto.
Qed.

(* ===================================================================== *)
(** * The command-line parser: precedence of sizes and percentages *)
(* ===================================================================== *)

Section CmdlineFacts.

Import Cmdline F64.

Lemma JavaMaxHeapSize_eq input :
  JavaMaxHeapSize (parseJVMParamsFromString input) =
  let size := fst (resolveHeap (maxHeapMatches input)) in
  let pos := snd (resolveHeap (maxHeapMatches input)) in
  if gtb (JavaMaxHeapAsPercentage (parseJVMParamsFromString input)) zero then
    if eqb size zero then neg_one
    else if (1 <? List.length (maxHeapMatches input)) && (maxRAMPercentagePos input >? pos)%Z
         then neg_one else size
  else size.
Proof.
  unfold parseJVMParamsFromString.
  destruct (resolveHeap (maxHeapMatches input)) as [ms mp].
  destruct (resolveHeap (initialHeapMatches input)) as [ih ip]. reflexivity.
Qed.

Lemma JavaInitialHeapSize_eq input :
  JavaInitialHeapSize (parseJVMParamsFromString input) =
  let size := fst (resolveHeap (initialHeapMatches input)) in
  if gtb (JavaInitialHeapAsPercentage (parseJVMParamsFromString input)) zero then
    if eqb size zero then neg_one else size
  else size.
Proof.
  unfold parseJVMParamsFromString.
  destruct (resolveHeap (maxHeapMatches input)) as [ms mp].
  destruct (resolveHeap (initialHeapMatches input)) as [ih ip]. reflexivity.
Qed.

Lemma JavaMaxHeapSize_0_eq input :
  JavaMaxHeapSize (parseJVMParamsFromString_0 input) =
  if gtb (JavaMaxHeapAsPercentage (parseJVMParamsFromString_0 input)) zero
  then neg_one else fst (resolveHeap (maxHeapMatches input)).
Proof.
  unfold parseJVMParamsFromString_0.
  destruct (resolveHeap (maxHeapMatches input)) as [ms mp].
  destruct (resolveHeap (initialHeapMatches input)) as [ih ip]. reflexivity.
Qed.

Lemma JavaInitialHeapSize_0_eq input :
  JavaInitialHeapSize (parseJVMParamsFromString_0 input) =
  if gtb (JavaInitialHeapAsPercentage (parseJVMParamsFromString_0 input)) zero
  then neg_one else fst (resolveHeap (initialHeapMatches input)).
Proof.
  unfold parseJVMParamsFromString_0.
  destruct (resolveHeap (maxHeapMatches input)) as [ms mp].
  destruct (resolveHeap (initialHeapMatches input)) as [ih ip]. reflexivity.
Qed.

Lemma nonneg_not_neg_one x : is_neg x = false -> x <> neg_one.
Proof. intros H ->. discriminate. Qed.

Lemma resolveHeap_eq l v p :
  l <> [] -> rightmost l = (v, p) ->
  resolveHeap l =
  match parseMemorySize v with
  | Some size => (size, p)
  | None => (zero, (-1)%Z)
  end.
Proof.
  intros Hne Hr. unfold resolveHeap. destruct l; [contradiction|]. now rewrite Hr.
Qed.

Lemma all_before_rightmost pos l :
  l <> [] -> (forall o, In o l -> (0 <= snd o)%Z) ->
  all_before pos l = (pos >? snd (rightmost l))%Z.
Proof.
  intros Hne Hpos. destruct (rightmost_spec l Hne Hpos) as [Hin Hmax].
  unfold all_before. destruct (pos >? snd (rightmost l))%Z eqn:E.
  - apply forallb_forall. intros o Ho. specialize (Hmax o Ho). lia.
  - apply not_true_is_false. intros F.
    rewrite forallb_forall in F. specialize (F _ Hin). simpl in F. lia.
Qed.

End CmdlineFacts.

Section CmdlineClaims.

Import Cmdline F64.

(** C1, as stated, fails: with the single absolute flag [-Xmx0] and a
    percentage flag, the max-heap field is the -1 sentinel although there
    is only one absolute occurrence. *)
Lemma C1_counterexample :
  ~ absolute_unless_trailing_percentage "java -Xmx0 -XX:MaxRAMPercentage=50.0 -jar app.jar".
Proof.
  unfold absolute_unless_trailing_percentage. intros H.
  destruct H as [H _]; [vm_compute; discriminate | vm_compute; discriminate |].
  destruct H as [Hlen _]; [vm_compute; reflexivity|].
  vm_compute in Hlen. lia.
Qed.

(** C1 (amended).  Let [v] be the text of the rightmost absolute max-heap
    occurrence.  If [v] converts to a size other than 0, the max-heap field
    is that size, unless the percentage is above 0, there is more than one
    absolute occurrence and the last [-XX:MaxRAMPercentage=] lies after all
    of them: then it is -1.  If [v] converts to 0 or does not convert, the
    occurrence counts as absent: the field is -1 when the percentage is
    above 0. *)
Theorem C1_max_heap_precedence (input v : string) (p : Z) :
  maxHeapMatches input <> [] ->
  rightmost (maxHeapMatches input) = (v, p) ->
  JavaMaxHeapSize (parseJVMParamsFromString input) =
  match parseMemorySize v with
  | Some size =>
      if eqb size zero then
        if gtb (JavaMaxHeapAsPercentage (parseJVMParamsFromString input)) zero
        then neg_one else size
      else if gtb (JavaMaxHeapAsPercentage (parseJVMParamsFromString input)) zero
              && (1 <? List.length (maxHeapMatches input))
              && all_before (maxRAMPercentagePos input) (maxHeapMatches input)
      then neg_one else size
  | None =>
      if gtb (JavaMaxHeapAsPercentage (parseJVMParamsFromString input)) zero
      then neg_one else zero
  end.
Proof.
  intros Hne Hr. rewrite JavaMaxHeapSize_eq.
  rewrite (all_before_rightmost _ _ Hne (maxHeapMatches_nonneg input)).
  rewrite (resolveHeap_eq _ v p Hne Hr), Hr.
  destruct (parseMemorySize v) as [size|]; cbn [fst snd].
  - destruct (gtb _ zero); destruct (eqb size zero); try reflexivity.
  - destruct (gtb _ zero); reflexivity.
Qed.

Lemma C1_witness :
  JavaMaxHeapSize
    (parseJVMParamsFromString "java -Xmx1g -Xmx2g -XX:MaxRAMPercentage=75.0 -jar app.jar")
  = neg_one.
Proof.
  refine (eq_trans (C1_max_heap_precedence _ "2g" 11 _ _) _).
  - vm_compute. discriminate.
  - vm_compute. reflexivity.
  - vm_compute. reflexivity.
Defined.

(** C2, as stated, fails: with [-Xms0] and a percentage flag the
    initial-heap field is the -1 sentinel. *)
Lemma C2_counterexample :
  ~ initial_absolute_always "java -Xms0 -XX:InitialRAMPercentage=25.0 -jar app.jar".
Proof.
  unfold initial_absolute_always. intros H.
  destruct H as [H _]; [vm_compute; discriminate | vm_compute; discriminate |].
  apply H. vm_compute. reflexivity.
Qed.

(** C2 (amended).  Let [v] be the text of the rightmost absolute
    initial-heap occurrence.  If [v] converts to a size other than 0, the
    initial-heap field is that size and not the sentinel, whatever
    percentage flags there are.  If [v] converts to 0 or does not convert,
    the field is -1 when the percentage is above 0. *)
Theorem C2_initial_heap_precedence (input v : string) (p : Z) :
  initialHeapMatches input <> [] ->
  rightmost (initialHeapMatches input) = (v, p) ->
  match parseMemorySize v with
  | Some size =>
      if eqb size zero then
        JavaInitialHeapSize (parseJVMParamsFromString input) =
        if gtb (JavaInitialHeapAsPercentage (parseJVMParamsFromString input)) zero
        then neg_one else size
      else
        JavaInitialHeapSize (parseJVMParamsFromString input) = size /\
        JavaInitialHeapSize (parseJVMParamsFromString input) <> neg_one
  | None =>
      JavaInitialHeapSize (parseJVMParamsFromString input) =
      if gtb (JavaInitialHeapAsPercentage (parseJVMParamsFromString input)) zero
      then neg_one else zero
  end.
Proof.
  intros Hne Hr. rewrite JavaInitialHeapSize_eq.
  rewrite (resolveHeap_eq _ v p Hne Hr).
  destruct (parseMemorySize v) as [size|] eqn:E; cbn [fst snd].
  - destruct (eqb size zero) eqn:Ez.
    + reflexivity.
    + assert (JavaInitialHeapSize_is :
        (if gtb (JavaInitialHeapAsPercentage (parseJVMParamsFromString input)) zero
         then size else size) = size) by (destruct (gtb _ _); reflexivity).
      rewrite JavaInitialHeapSize_is. split; [reflexivity|].
      apply nonneg_not_neg_one. eapply parseMemorySize_nonneg; eauto.
  - destruct (gtb _ zero); reflexivity.
Qed.

Lemma C2_witness :
  JavaInitialHeapSize
    (parseJVMParamsFromString
       "java -XX:InitialRAMPercentage=25.0 -Xms512m -XX:InitialRAMPercentage=50.0 App")
  = mul (mul (of_Z 512) c1024) c1024 /\
  JavaInitialHeapSize
    (parseJVMParamsFromString
       "java -XX:InitialRAMPercentage=25.0 -Xms512m -XX:InitialRAMPercentage=50.0 App")
  <> neg_one.
Proof.
  pose proof (C2_initial_heap_precedence
    "java -XX:InitialRAMPercentage=25.0 -Xms512m -XX:InitialRAMPercentage=50.0 App"
    "512m" 34) as H.
  change (parseMemorySize "512m") with (Some (mul (mul (of_Z 512) c1024) c1024)) in H.
  cbv iota beta in H.
  change (eqb (mul (mul (of_Z 512) c1024) c1024) zero) with false in H.
  cbv iota in H.
  apply H.
  - vm_compute. discriminate.
  - vm_compute. reflexivity.
Defined.

(** C3.  The occurrences of both spellings of a heap kind are pooled; the
    winner is a pooled occurrence whose offset no other exceeds, whichever
    its spelling; without a percentage above 0 the field is the winner's
    size.  [-Xmx1g] before [-XX:MaxHeapSize=4g] gives 4*1024^3 bytes, the
    flags swapped give 1024^3. *)
Theorem C3_rightmost_occurrence_wins (input : string) :
  maxHeapMatches input
    = (occurrences xmxRegex input ++ occurrences xxMaxHeapRegex input)%list /\
  initialHeapMatches input
    = (occurrences xmsRegex input ++ occurrences xxMinHeapRegex input)%list /\
  (maxHeapMatches input <> [] ->
   In (rightmost (maxHeapMatches input)) (maxHeapMatches input) /\
   (forall o, In o (maxHeapMatches input) ->
              (snd o <= snd (rightmost (maxHeapMatches input)))%Z) /\
   (gtb (JavaMaxHeapAsPercentage (parseJVMParamsFromString input)) zero = false ->
    JavaMaxHeapSize (parseJVMParamsFromString input) =
    default zero (parseMemorySize (fst (rightmost (maxHeapMatches input)))))) /\
  (initialHeapMatches input <> [] ->
   In (rightmost (initialHeapMatches input)) (initialHeapMatches input) /\
   (forall o, In o (initialHeapMatches input) ->
              (snd o <= snd (rightmost (initialHeapMatches input)))%Z) /\
   (gtb (JavaInitialHeapAsPercentage (parseJVMParamsFromString input)) zero = false ->
    JavaInitialHeapSize (parseJVMParamsFromString input) =
    default zero (parseMemorySize (fst (rightmost (initialHeapMatches input)))))) /\
  JavaMaxHeapSize (parseJVMParamsFromString "java -Xmx1g -XX:MaxHeapSize=4g MyApp")
    = of_Z (4 * 1024 ^ 3) /\
  JavaMaxHeapSize (parseJVMParamsFromString "java -XX:MaxHeapSize=4g -Xmx1g MyApp")
    = of_Z (1 * 1024 ^ 3).
Proof.
  split; [reflexivity|]. split; [reflexivity|].
  split; [|split; [|split; vm_compute; reflexivity]].
  - intros Hne.
    destruct (rightmost_spec _ Hne (maxHeapMatches_nonneg input)) as [Hin Hmax].
    split; [exact Hin|]. split; [exact Hmax|]. intros Hp.
    rewrite JavaMaxHeapSize_eq, Hp. cbn zeta.
    destruct (rightmost (maxHeapMatches input)) as [v p] eqn:Hr.
    rewrite (resolveHeap_eq _ v p Hne Hr). cbn [fst].
    destruct (parseMemorySize v); reflexivity.
  - intros Hne.
    destruct (rightmost_spec _ Hne (initialHeapMatches_nonneg input)) as [Hin Hmax].
    split; [exact Hin|]. split; [exact Hmax|]. intros Hp.
    rewrite JavaInitialHeapSize_eq, Hp. cbn zeta.
    destruct (rightmost (initialHeapMatches input)) as [v p] eqn:Hr.
    rewrite (resolveHeap_eq _ v p Hne Hr). cbn [fst].
    destruct (parseMemorySize v); reflexivity.
Qed.

Lemma C3_witness :
  In (rightmost (maxHeapMatches "java -Xmx1g -XX:MaxHeapSize=2g -Xmx4g MyApp"))
     (maxHeapMatches "java -Xmx1g -XX:MaxHeapSize=2g -Xmx4g MyApp").
Proof.
  apply (C3_rightmost_occurrence_wins "java -Xmx1g -XX:MaxHeapSize=2g -Xmx4g MyApp").
  vm_compute. discriminate.
Defined.

(** C8.  In both revisions of the parser, a heap-size field equal to -1
    comes with a percentage above 0; and a max-heap (initial-heap)
    percentage above 0 with no absolute max-heap (initial-heap) occurrence
    in the input makes the size field -1. *)
Theorem C8_sentinel_invariant (input : string) :
  (JavaMaxHeapSize (parseJVMParamsFromString input) = neg_one ->
   gtb (JavaMaxHeapAsPercentage (parseJVMParamsFromString input)) zero = true) /\
  (JavaInitialHeapSize (parseJVMParamsFromString input) = neg_one ->
   gtb (JavaInitialHeapAsPercentage (parseJVMParamsFromString input)) zero = true) /\
  (gtb (JavaMaxHeapAsPercentage (parseJVMParamsFromString input)) zero = true ->
   maxHeapMatches input = [] ->
   JavaMaxHeapSize (parseJVMParamsFromString input) = neg_one) /\
  (gtb (JavaInitialHeapAsPercentage (parseJVMParamsFromString input)) zero = true ->
   initialHeapMatches input = [] ->
   JavaInitialHeapSize (parseJVMParamsFromString input) = neg_one) /\
  (JavaMaxHeapSize (parseJVMParamsFromString_0 input) = neg_one ->
   gtb (JavaMaxHeapAsPercentage (parseJVMParamsFromString_0 input)) zero = true) /\
  (JavaInitialHeapSize (parseJVMParamsFromString_0 input) = neg_one ->
   gtb (JavaInitialHeapAsPercentage (parseJVMParamsFromString_0 input)) zero = true) /\
  (gtb (JavaMaxHeapAsPercentage (parseJVMParamsFromString_0 input)) zero = true ->
   maxHeapMatches input = [] ->
   JavaMaxHeapSize (parseJVMParamsFromString_0 input) = neg_one) /\
  (gtb (JavaInitialHeapAsPercentage (parseJVMParamsFromString_0 input)) zero = true ->
   initialHeapMatches input = [] ->
   JavaInitialHeapSize (parseJVMParamsFromString_0 input) = neg_one).
Proof.
  rewrite JavaMaxHeapSize_eq, JavaInitialHeapSize_eq,
    JavaMaxHeapSize_0_eq, JavaInitialHeapSize_0_eq. cbn zeta.
  pose proof (nonneg_not_neg_one _ (resolveHeap_nonneg (maxHeapMatches input))) as Hm.
  pose proof (nonneg_not_neg_one _ (resolveHeap_nonneg (initialHeapMatches input))) as Hi.
  repeat split.
  - destruct (gtb _ zero); [reflexivity | intros H; now apply Hm in H].
  - destruct (gtb _ zero); [reflexivity | intros H; now apply Hi in H].
  - intros -> ->. reflexivity.
  - intros -> ->. reflexivity.
  - destruct (gtb _ zero); [reflexivity | intros H; now apply Hm in H].
  - destruct (gtb _ zero); [reflexivity | intros H; now apply Hi in H].
  - intros ->. reflexivity.
  - intros ->. reflexivity.
Qed.

Lemma C8_witness :
  JavaMaxHeapSize (parseJVMParamsFromString "java -XX:MaxRAMPercentage=50.0 -jar worker.jar")
  = neg_one.
Proof.
  apply (C8_sentinel_invariant "java -XX:MaxRAMPercentage=50.0 -jar worker.jar").
  - vm_compute. reflexivity.
  - vm_compute. reflexivity.
Defined.

(** C10, as stated, fails: [-Xmx2.5g] is captured, with the value [2]. *)
Lemma C10_counterexample : ~ never_captured "java -Xmx2.5g -jar app.jar".
Proof.
  unfold never_captured. intros [H _]. vm_compute in H. discriminate.
Qed.

(** C10 (amended).  Every captured size text is a run of digits followed
    by at most one of the letters k, m, g, K, M, G, and stands right after
    one of the four flag spellings, which stands at the start of the input
    or after a white-space byte.  The match does not have to end where the
    flag's value ends: [-Xmx2.5g] is captured as [2] and gives 2 bytes,
    [-Xms1t] is captured as [1] and gives 1 byte.  [--Xmx2g] and
    [-XMS512m] give no occurrence. *)
Theorem C10_captured_size_texts (input : string) :
  (forall o, In o (maxHeapMatches input ++ initialHeapMatches input)%list ->
     size_text (fst o) /\
     exists flag b, In flag size_flags /\ snd o = Z.of_nat b /\
                    flag_at flag (fst o) b input) /\
  maxHeapMatches "java -Xmx2.5g -jar app.jar" = [("2", 4%Z)] /\
  JavaMaxHeapSize (parseJVMParamsFromString "java -Xmx2.5g -jar app.jar") = of_Z 2 /\
  initialHeapMatches "java -Xms1t -jar app.jar" = [("1", 4%Z)] /\
  JavaInitialHeapSize (parseJVMParamsFromString "java -Xms1t -jar app.jar") = of_Z 1 /\
  maxHeapMatches "java --Xmx2g -XMS512m -jar app.jar" = [] /\
  initialHeapMatches "java --Xmx2g -XMS512m -jar app.jar" = [].
Proof.
  split; [|repeat split; vm_compute; reflexivity].
  intros [v p] Hin. unfold maxHeapMatches, initialHeapMatches in Hin.
  rewrite !in_app_iff in Hin. unfold size_flags. cbn [fst snd].
  destruct Hin as [[H|H]|[H|H]]; apply occurrences_sound in H;
    destruct H as (b & -> & Hv & Hf); (split; [exact Hv|]).
  - exists "-Xmx", b. simpl. auto.
  - exists "-XX:MaxHeapSize=", b. simpl. auto.
  - exists "-Xms", b. simpl. auto.
  - exists "-XX:MinHeapSize=", b. simpl. auto 6.
Qed.

Lemma C10_witness : size_text "512m".
Proof.
  apply (proj1 (C10_captured_size_texts "java -Xmx512m MyApp") ("512m", 4%Z)).
  vm_compute. auto.
Defined.

End CmdlineClaims.

(* ===================================================================== *)
(** * Garbage-collector classification *)
(* ===================================================================== *)








(* ===================================================================== *)
(** * The orchestrator *)
(* ===================================================================== *)

Section EngineClaims.

Import Engine.

Lemma fallback_fields live cmd :
  noHeapSizes live = true ->
  JavaMaxHeapSize (fallback live cmd) = JavaMaxHeapSize cmd /\
  JavaInitialHeapSize (fallback live cmd) = JavaInitialHeapSize cmd /\
  JavaMaxHeapAsPercentage (fallback live cmd) =
    (if String.eqb (JavaMaxHeapAsPercentage cmd) "" then JavaMaxHeapAsPercentage live
     else JavaMaxHeapAsPercentage cmd) /\
  JavaInitialHeapAsPercentage (fallback live cmd) =
    (if String.eqb (JavaInitialHeapAsPercentage cmd) "" then JavaInitialHeapAsPercentage live
     else JavaInitialHeapAsPercentage cmd) /\
  GCType (fallback live cmd) =
    (if String.eqb (GCType live) "Unknown" && negb (String.eqb (GCType cmd) "Unknown")
     then GCType cmd else GCType live).
Proof.
  unfold noHeapSizes. intros H. apply andb_true_iff in H. destruct H as [Hm Hi].
  apply String.eqb_eq in Hm, Hi.
  destruct live as [lm li lmp lip lgc], cmd as [cm ci cmp cip cgc]. simpl in *. subst.
  unfold fallback. simpl.
  destruct (String.eqb_spec cm ""), (String.eqb_spec ci ""),
    (String.eqb_spec cmp ""), (String.eqb_spec cip ""); subst; simpl;
    destruct (String.eqb lgc "Unknown" && negb (String.eqb cgc "Unknown")); simpl;
    repeat split; reflexivity.
Qed.

(** C6, as stated, fails: the live dump carries a max-heap percentage, yet
    the command line is consulted, its heap sizes are taken and its
    percentage replaces the live one. *)
Lemma C6_counterexample :
  ~ falls_back_as_specified
      (answering "-XX:MaxRAMPercentage=75.0 -XX:+UseG1GC")
      "java -Xmx4g -XX:MaxRAMPercentage=50.0 -jar app.jar" 1.
Proof.
  unfold falls_back_as_specified. intros H.
  specialize (H _ eq_refl). vm_compute in H. discriminate.
Qed.

Lemma fallback_merge (w : Attach) (cmdline : string) (pid : nat) (vmFlags : string) :
  GetVMFlags w pid = Some vmFlags ->
  let live := parseVMFlagsOutput vmFlags (vendor_of w pid vmFlags) in
  let cmd := parseFromCmdline cmdline pid in
  let r := ParseJVMParams w cmdline pid in
  (noHeapSizes live = false -> r = live) /\
  (noHeapSizes live = true ->
     JavaMaxHeapSize r = JavaMaxHeapSize cmd /\
     JavaInitialHeapSize r = JavaInitialHeapSize cmd /\
     JavaMaxHeapAsPercentage r =
       (if String.eqb (JavaMaxHeapAsPercentage cmd) "" then JavaMaxHeapAsPercentage live
        else JavaMaxHeapAsPercentage cmd) /\
     JavaInitialHeapAsPercentage r =
       (if String.eqb (JavaInitialHeapAsPercentage cmd) ""
        then JavaInitialHeapAsPercentage live
        else JavaInitialHeapAsPercentage cmd) /\
     GCType r =
       (if String.eqb (GCType live) "Unknown" && negb (String.eqb (GCType cmd) "Unknown")
        then GCType cmd else GCType live)).
Proof.
  intros Hflags live cmd r. subst r. unfold ParseJVMParams. rewrite Hflags.
  fold live. fold cmd. split; intros Hn; rewrite Hn; [reflexivity|].
  now apply fallback_fields.
Qed.

(** C6 (amended).  When the flags command answers, the command line is
    consulted if and only if the live dump gave no absolute max-heap size
    and no absolute initial-heap size; its percentages do not count.  When
    consulted, the two heap sizes are those of the command line, a
    percentage is the command line's when that is not empty and the live
    one otherwise, and the GC type is the command line's only when the
    live one is Unknown and the command line's is not.  Otherwise the
    result is the live configuration, whatever the command line. *)
Theorem C6_fallback_merge (w : Attach) (cmdline : string) (pid : nat) (vmFlags : string) :
  GetVMFlags w pid = Some vmFlags ->
  let live := parseVMFlagsOutput vmFlags (vendor_of w pid vmFlags) in
  let cmd := parseFromCmdline cmdline pid in
  let r := ParseJVMParams w cmdline pid in
  (noHeapSizes live = false -> r = live) /\
  (noHeapSizes live = true ->
     JavaMaxHeapSize r = JavaMaxHeapSize cmd /\
     JavaInitialHeapSize r = JavaInitialHeapSize cmd /\
     JavaMaxHeapAsPercentage r =
       (if String.eqb (JavaMaxHeapAsPercentage cmd) "" then JavaMaxHeapAsPercentage live
        else JavaMaxHeapAsPercentage cmd) /\
     JavaInitialHeapAsPercentage r =
       (if String.eqb (JavaInitialHeapAsPercentage cmd) ""
        then JavaInitialHeapAsPercentage live
        else JavaInitialHeapAsPercentage cmd) /\
     GCType r =
       (if String.eqb (GCType live) "Unknown" && negb (String.eqb (GCType cmd) "Unknown")
        then GCType cmd else GCType live)).
Proof. exact (fallback_merge w cmdline pid vmFlags). Qed.

Lemma C6_witness :
  JavaMaxHeapAsPercentage
    (ParseJVMParams (answering "-XX:MaxRAMPercentage=75.0 -XX:+UseG1GC")
                    "java -Xmx4g -XX:MaxRAMPercentage=50.0 -jar app.jar" 1)
  = "50.0".
Proof.
  pose proof (C6_fallback_merge (answering "-XX:MaxRAMPercentage=75.0 -XX:+UseG1GC")
                "java -Xmx4g -XX:MaxRAMPercentage=50.0 -jar app.jar" 1
                "-XX:MaxRAMPercentage=75.0 -XX:+UseG1GC" eq_refl) as H.
  cbv zeta in H. destruct H as [_ H].
  destruct H as (_ & _ & H & _); [vm_compute; reflexivity|].
  rewrite H. vm_compute. reflexivity.
Defined.

(** ** What the command line alone gives *)









End EngineClaims.

(* ===================================================================== *)
(** * Percentages and fractions in the live-flags parser *)
(* ===================================================================== *)

Section VMFlagsClaims.

Import VMFlags F64.












End VMFlagsClaims.

(* ===================================================================== *)
(** * Environment and command line *)
(* ===================================================================== *)

Section BlobClaims.

Import Cmdline.

Lemma nonempty_spec s : nonempty s = true <-> s <> "".
Proof.
  unfold nonempty. destruct (String.eqb_spec s ""); simpl; split; intros H;
    congruence.
Qed.

Lemma Join_snoc (l : list string) (x sep : string) :
  l <> [] -> Str.Join (l ++ [x]) sep = Str.Join l sep ++ sep ++ x.
Proof.
  induction l as [|y l IH]; intros Hne; [contradiction|].
  destruct l as [|z l]; [reflexivity|].
  change (Str.Join ((y :: z :: l) ++ [x]) sep)
    with (y ++ sep ++ Str.Join ((z :: l) ++ [x]) sep).
  rewrite IH by discriminate.
  change (Str.Join (y :: z :: l) sep) with (y ++ sep ++ Str.Join (z :: l) sep).
  now rewrite !app_assoc_s.
Qed.

Lemma Join_nonempty (l : list string) (sep : string) :
  l <> [] -> Forall (fun y => nonempty y = true) l -> 0 < String.length (Str.Join l sep).
Proof.
  intros Hne Hall. destruct l as [|y l]; [contradiction|].
  inversion Hall as [|? ? Hy _]; subst. apply nonempty_spec in Hy.
  destruct y as [|c y]; [contradiction|].
  destruct l; simpl; lia.
Qed.

Lemma fold_append_arg : forall args l,
  Forall (fun y => nonempty y = true) l ->
  fold_left append_arg args (Str.Join l " ")
  = Str.Join (l ++ List.filter nonempty args) " ".
Proof.
  induction args as [|x args IH]; intros l Hall; simpl.
  - now rewrite app_nil_r.
  - unfold append_arg at 2. unfold nonempty at 2.
    destruct (String.eqb_spec x "") as [->|Hx]; simpl; [now apply IH|].
    assert (Hstep : (if 0 <? String.length (Str.Join l " ")
                     then Str.Join l " " ++ " " ++ x else Str.Join l " " ++ x)
                    = Str.Join (l ++ [x]) " ").
    { destruct l as [|y l]; [reflexivity|].
      pose proof (Join_nonempty (y :: l) " " ltac:(discriminate) Hall) as Hlen.
      apply Nat.ltb_lt in Hlen. rewrite Hlen. now rewrite Join_snoc. }
    rewrite Hstep, IH.
    + apply nonempty_spec in Hx. rewrite Hx. now rewrite <- app_assoc.
    + apply Forall_app. split; [exact Hall|]. constructor; [|constructor].
      now apply nonempty_spec.
Qed.

Lemma fold_left_map_arg {A : Type} (f : A -> string) : forall ks acc,
  fold_left (fun acc k => append_arg acc (f k)) ks acc
  = fold_left append_arg (map f ks) acc.
Proof. induction ks as [|k ks IH]; intros acc; simpl; [reflexivity | apply IH]. Qed.

Lemma combinedArgs_Join cmdline env :
  combinedArgs cmdline env
  = Str.Join (List.filter nonempty (env_values env ++ [cmdline])) " ".
Proof.
  unfold combinedArgs.
  rewrite (fold_left_map_arg (fun envVar => default "" (env !! envVar))).
  fold (env_values env).
  change (append_arg (fold_left append_arg (env_values env) "") cmdline)
    with (fold_left append_arg [cmdline] (fold_left append_arg (env_values env) "")).
  rewrite <- fold_left_app.
  apply (fold_append_arg (env_values env ++ [cmdline]) []). constructor.
Qed.

Lemma combinedArgs_split cmdline env :
  env_part env <> "" -> cmdline <> "" ->
  combinedArgs cmdline env = env_part env ++ " " ++ cmdline.
Proof.
  intros He Hc. rewrite combinedArgs_Join, List.filter_app. simpl.
  apply nonempty_spec in Hc. rewrite Hc. unfold env_part in *.
  apply Join_snoc. intros Hnil. now rewrite Hnil in He.
Qed.

(** ** Where an occurrence of the combined text comes from *)

Lemma drop_le_app (n : nat) (s t : string) :
  n <= String.length s -> Str.drop n (s ++ t) = Str.drop n s ++ t.
Proof.
  revert s. induction n as [|n IH]; intros s Hn.
  - now rewrite !drop_0.
  - destruct s as [|a s]; simpl in Hn; [lia|]. rewrite app_cons. simpl. apply IH. lia.
Qed.

Lemma drop_length (s : string) : Str.drop (String.length s) s = "".
Proof. induction s as [|a s IH]; simpl; auto. Qed.

Lemma drop_inside (p : ascii -> bool) : forall w k rest,
  Str.all p w = true -> k < String.length w ->
  exists c s', Str.drop k (w ++ rest) = String c s' /\ p c = true.
Proof.
  induction w as [|a w IH]; intros k rest Hall Hk; simpl in Hk; [lia|].
  simpl in Hall. apply andb_true_iff in Hall. destruct Hall as [Ha Hw].
  rewrite app_cons. destruct k as [|k]; simpl.
  - eauto.
  - apply IH; [exact Hw | lia].
Qed.

Lemma all_app (p : ascii -> bool) (s t : string) :
  Str.all p (s ++ t) = Str.all p s && Str.all p t.
Proof.
  induction s as [|a s IH]; [reflexivity|]. rewrite app_cons. simpl.
  now rewrite IH, andb_assoc.
Qed.

Lemma all_impl (p q : ascii -> bool) (s : string) :
  (forall a, p a = true -> q a = true) -> Str.all p s = true -> Str.all q s = true.
Proof.
  intros Hpq. induction s as [|a s IH]; simpl; [reflexivity|].
  intros H. apply andb_true_iff in H. destruct H as [Ha Hs].
  now rewrite (Hpq a Ha), IH.
Qed.

Lemma digit_not_space a : digit a = true -> not_space a = true.
Proof.
  intros H. apply digit_cases in H.
  destruct H as [->|[->|[->|[->|[->|[->|[->|[->|[->| ->]]]]]]]]]; reflexivity.
Qed.

Lemma unit_not_space a : one_of "kmgKMG" a = true -> not_space a = true.
Proof.
  destruct a as [[] [] [] [] [] [] [] []]; vm_compute; intros H;
    try discriminate; reflexivity.
Qed.

Lemma size_text_no_space v : size_text v -> Str.all not_space v = true.
Proof.
  intros (d & ds & u & -> & Hd & Hds & Hu). rewrite all_app. simpl.
  rewrite (digit_not_space d Hd), (all_impl digit not_space ds digit_not_space Hds).
  destruct Hu as [->|(a & -> & Ha)]; simpl; [reflexivity|].
  now rewrite (unit_not_space a Ha).
Qed.

Lemma size_flag_no_space flag : In flag size_flags -> Str.all not_space flag = true.
Proof.
  unfold size_flags. simpl. intros [<-|[<-|[<-|[<-|[]]]]]; reflexivity.
Qed.

Lemma drop_app_cut (E X w rest : string) (t : nat) :
  Str.drop t (E ++ X) = w ++ rest -> t + String.length w <= String.length E ->
  exists rest', Str.drop t E = w ++ rest'.
Proof.
  intros Hd Hlen.
  rewrite drop_le_app in Hd by lia.
  assert (Hw : String.length w <= String.length (Str.drop t E)).
  { clear Hd. revert t Hlen. induction E as [|a E IH]; intros t Hlen; simpl in *.
    - destruct t; simpl; lia.
    - destruct t as [|t]; simpl; [lia|]. apply IH. lia. }
  revert Hd Hw. generalize (Str.drop t E) as e. clear.
  induction w as [|a w IH]; intros e Hd Hw.
  - exists e. reflexivity.
  - destruct e as [|b e]; simpl in Hw; [lia|].
    rewrite !app_cons in Hd. inversion Hd; subst.
    destruct (IH e) as (rest' & ->); [assumption | lia|].
    exists rest'. now rewrite app_cons.
Qed.

Lemma occurrence_origin (E cmdline : string) (o : occurrence) :
  E <> "" ->
  In o (size_occurrences (E ++ " " ++ cmdline)) ->
  ((snd o < Z.of_nat (String.length E))%Z /\ spelled_in E o) \/
  ((Z.of_nat (String.length E) <= snd o)%Z /\ spelled_in cmdline o).
Proof.
  intros HE Hin. destruct o as [v p]. unfold size_occurrences in Hin.
  assert (Hs : exists flag b, In flag size_flags /\ p = Z.of_nat b /\
                 size_text v /\ flag_at flag v b (E ++ " " ++ cmdline)).
  { unfold maxHeapMatches, initialHeapMatches in Hin. rewrite !in_app_iff in Hin.
    unfold size_flags.
    destruct Hin as [[H|H]|[H|H]]; apply occurrences_sound in H;
      destruct H as (b & -> & Hv & Hf); eexists _, b;
      (split; [|split; [reflexivity | split; [exact Hv | exact Hf]]]);
      simpl; auto 6. }
  destruct Hs as (flag & b & Hflag & -> & Hv & (rest & Hat)). cbn [fst snd].
  assert (Hw : Str.all not_space (flag ++ v) = true).
  { rewrite all_app, (size_flag_no_space _ Hflag), (size_text_no_space _ Hv).
    reflexivity. }
  assert (Hsep : Str.drop (String.length E) (E ++ " " ++ cmdline) = String " " cmdline).
  { apply drop_app_length. }
  destruct (Nat.lt_ge_cases b (String.length E)) as [Hlt|Hge].
  - left. split; [lia|].
    destruct Hat as [[-> Heq]|(a & Ha & Hd)].
    + (* the flag starts the text *)
      assert (Hin' : String.length (flag ++ v) <= String.length E).
      { destruct (Nat.le_gt_cases (String.length (flag ++ v)) (String.length E))
          as [?|Hgt]; [assumption|exfalso].
        destruct (drop_inside not_space (flag ++ v) (String.length E) rest Hw Hgt)
          as (c & s' & Hc & Hpc).
        rewrite <- (app_assoc_s flag v rest) in Heq. rewrite Heq in Hsep. rewrite Hsep in Hc.
        inversion Hc; subst. discriminate. }
      destruct (drop_app_cut E (" " ++ cmdline) (flag ++ v) rest 0) as (rest' & Hr).
      * rewrite drop_0, app_assoc_s. exact Heq.
      * simpl. exact Hin'.
      * exists flag, 0, rest'. split; [exact Hflag|].
        cbn [fst]. now rewrite Hr, app_assoc_s.
    + (* the flag follows a white-space byte *)
      assert (Hd1 : Str.drop (S b) (E ++ " " ++ cmdline) = (flag ++ v) ++ rest).
      { rewrite (drop_S_cons _ _ _ _ Hd). now rewrite app_assoc_s. }
      assert (Hin' : S b + String.length (flag ++ v) <= String.length E).
      { destruct (Nat.le_gt_cases (S b + String.length (flag ++ v)) (String.length E))
          as [?|Hgt]; [assumption|exfalso].
        destruct (drop_inside not_space (flag ++ v) (String.length E - S b) rest Hw
                    ltac:(lia)) as (c & s' & Hc & Hpc).
        rewrite <- Hd1, drop_drop in Hc.
        replace (S b + (String.length E - S b)) with (String.length E) in Hc by lia.
        rewrite Hsep in Hc. inversion Hc; subst. discriminate. }
      destruct (drop_app_cut E (" " ++ cmdline) (flag ++ v) rest (S b) Hd1 Hin')
        as (rest' & Hr).
      exists flag, (S b), rest'. split; [exact Hflag|].
      cbn [fst]. now rewrite Hr, app_assoc_s.
  - right. split; [lia|].
    assert (Hb : b <> 0).
    { destruct E; [contradiction | simpl in Hge; lia]. }
    destruct Hat as [[-> _]|(a & Ha & Hd)]; [contradiction|].
    exists flag, (b - String.length E), rest. split; [exact Hflag|]. cbn [fst].
    replace b with (String.length E + (b - String.length E)) in Hd by lia.
    rewrite <- drop_drop, Hsep in Hd.
    apply drop_S_cons in Hd. simpl in Hd. exact Hd.
Qed.

(** C4.  The text parsed is the values of JAVA_TOOL_OPTIONS,
    _JAVA_OPTIONS, JDK_JAVA_OPTIONS and IBM_JAVA_OPTIONS in that order,
    then the command line, the empty ones left out, joined by single
    spaces.  Hence, when both parts are present, every size-flag
    occurrence either lies before the end of the environment part and is
    spelled there, or lies at or after it and is spelled in the command
    line; an occurrence of the second kind has the greater offset, and
    when a heap kind has one, its winner is of the second kind.  The
    command line [-Xmx8g -XX:+UseZGC] over JAVA_TOOL_OPTIONS
    [-Xmx2g -Xms512m ...] gives 8*1024^3 and 512*1024^2 bytes. *)
Theorem C4_command_line_after_environment (cmdline : string) (env : gmap string string) :
  combinedArgs cmdline env
    = Str.Join (List.filter nonempty (env_values env ++ [cmdline])) " " /\
  parseJVMParams cmdline env
    = parseJVMParamsFromString
        (Str.Join (List.filter nonempty (env_values env ++ [cmdline])) " ") /\
  (env_part env <> "" -> cmdline <> "" ->
     combinedArgs cmdline env = env_part env ++ " " ++ cmdline /\
     (forall o, In o (size_occurrences (combinedArgs cmdline env)) ->
        ((snd o < Z.of_nat (String.length (env_part env)))%Z /\ spelled_in (env_part env) o)
        \/ ((Z.of_nat (String.length (env_part env)) <= snd o)%Z /\ spelled_in cmdline o)) /\
     (forall l, l = maxHeapMatches (combinedArgs cmdline env)
                \/ l = initialHeapMatches (combinedArgs cmdline env) ->
        (exists o, In o l /\ (Z.of_nat (String.length (env_part env)) <= snd o)%Z) ->
        (Z.of_nat (String.length (env_part env)) <= snd (rightmost l))%Z)) /\
  (let r := parseJVMParams "-Xmx8g -XX:+UseZGC"
              {[ "JAVA_TOOL_OPTIONS" := "-Xmx2g -Xms512m -XX:+UseG1GC -XX:MaxGCPauseMillis=200" ]} in
   JavaMaxHeapSize r = F64.of_Z (8 * 1024 ^ 3) /\
   JavaInitialHeapSize r = F64.of_Z (512 * 1024 ^ 2)).
Proof.
  split; [apply combinedArgs_Join|].
  split; [unfold parseJVMParams; now rewrite combinedArgs_Join|].
  split; [|vm_compute; split; reflexivity].
  intros He Hc. pose proof (combinedArgs_split cmdline env He Hc) as Hsplit.
  split; [exact Hsplit|]. split.
  - intros o Ho. rewrite Hsplit in Ho. now apply occurrence_origin.
  - intros l Hl (o & Ho & Hpos).
    assert (Hne : l <> []) by (intros ->; contradiction).
    assert (Hnonneg : forall o, In o l -> (0 <= snd o)%Z).
    { destruct Hl as [->| ->];
        [apply maxHeapMatches_nonneg | apply initialHeapMatches_nonneg]. }
    destruct (rightmost_spec l Hne Hnonneg) as [_ Hmax].
    specialize (Hmax o Ho). lia.
Qed.

Lemma C4_witness :
  combinedArgs "java -Xmx8g -jar app.jar"
    {[ "JAVA_TOOL_OPTIONS" := "-XX:MaxHeapSize=2g -Xms512m" ]}
  = env_part {[ "JAVA_TOOL_OPTIONS" := "-XX:MaxHeapSize=2g -Xms512m" ]}
    ++ " " ++ "java -Xmx8g -jar app.jar".
Proof.
  destruct (C4_command_line_after_environment "java -Xmx8g -jar app.jar"
              {[ "JAVA_TOOL_OPTIONS" := "-XX:MaxHeapSize=2g -Xms512m" ]})
    as (_ & _ & H & _).
  apply H.
  - vm_compute. discriminate.
  - discriminate.
Defined.

End BlobClaims.
